(** * ChemProt-to-Standoff: a shallow embedding of [chemprot_to_standoff.py]

    The script converts the ChemProt corpus (three tab-separated files:
    abstracts, entities, gold-standard relations) into Brat-flavoured
    standoff files.  This development embeds the script's functions as Rocq
    functions and proves properties of them.

    Conventions of the embedding.
    - A Python [str] is a [string]; every [ascii] stands for the code point
      of the same number, so the model covers the texts whose code points
      lie below 256.
    - A Python [dict] is an insertion-ordered association list whose keys
      are pairwise distinct ([Dict.t]); [d[k] = v] is [Dict.set].
    - A file open for reading is its (newline-translated) content;
      [f.read()] is the content itself and [for line in f] runs over
      [readlines], which keeps the line terminators as Python does.
    - A raised exception is the [Raise] constructor of [result].
    - The file system is a state [World] that the two calls of the script
      to the operating system transform: [os.makedirs], and the writing of
      a file ([open] for writing, then [write]).  Either can fail, with the
      [errno] of the [OSError]; the functions that write return, with the
      new state, the files they have written.
    - The files of the input directory are given with their content: the
      run starts after [glob] and the reads have succeeded. *)

From Stdlib Require Import List String Ascii Bool Arith Lia DecimalString.
Import ListNotations.
Open Scope string_scope.

(** ** Exceptions *)

Inductive errno := EEXIST | EACCES | ENOENT | ENOTDIR | ENOSPC | EROFS.

Inductive exn :=
| ValueError            (* tuple unpacking with the wrong number of values *)
| NameError             (* use of a local variable that was never bound *)
| OSError (e : errno).

Inductive result (A : Type) :=
| Ok (a : A)
| Raise (e : exn).
Arguments Ok {A} a.
Arguments Raise {A} e.

Definition bind {A B} (r : result A) (k : A -> result B) : result B :=
  match r with
  | Ok a => k a
  | Raise e => Raise e
  end.

(** [for x in xs: s = body s x], stopping at the first exception. *)
Fixpoint for_each {S X} (body : S -> X -> result S) (xs : list X) (s : S)
  : result S :=
  match xs with
  | [] => Ok s
  | x :: xs' => bind (body s x) (for_each body xs')
  end.

(** ** Python strings *)

Module Str.

Definition tab : ascii := "009"%char.
Definition nl : ascii := "010"%char.
Definition TAB : string := String tab "".
Definition NL : string := String nl "".

(** [str.isspace] on the code points below 256:
    U+0009..U+000D, U+001C..U+001F, U+0020, U+0085 and U+00A0. *)
Definition isspace (c : ascii) : bool :=
  let n := nat_of_ascii c in
  (((9 <=? n) && (n <=? 13)) || ((28 <=? n) && (n <=? 31))
   || (n =? 32) || (n =? 133) || (n =? 160))%nat.

Fixpoint lstrip (s : string) : string :=
  match s with
  | "" => ""
  | String c s' => if isspace c then lstrip s' else s
  end.

Fixpoint rstrip (s : string) : string :=
  match s with
  | "" => ""
  | String c s' =>
      match rstrip s' with
      | "" => if isspace c then "" else String c ""
      | r => String c r
      end
  end.

(** [s.strip()] *)
Definition strip (s : string) : string := lstrip (rstrip s).

(** [s.split(sep)] for a one-character separator.  The result is never
    empty, so the [nil] branch below is never taken. *)
Fixpoint split (sep : ascii) (s : string) : list string :=
  match s with
  | "" => [""]
  | String c s' =>
      if Ascii.eqb c sep then "" :: split sep s'
      else match split sep s' with
           | [] => [String c ""]
           | f :: fs => String c f :: fs
           end
  end.

(** [sep.join(xs)] *)
Fixpoint join (sep : string) (xs : list string) : string :=
  match xs with
  | [] => ""
  | x :: rest =>
      match rest with
      | [] => x
      | _ :: _ => x ++ sep ++ join sep rest
      end
  end.

(** [for line in f]: the content cut after every newline, terminators kept.
    No line is empty and only the last one can lack its terminator. *)
Fixpoint readlines (s : string) : list string :=
  match s with
  | "" => []
  | String c s' =>
      if Ascii.eqb c nl then String c "" :: readlines s'
      else match readlines s' with
           | [] => [String c ""]
           | l :: ls => String c l :: ls
           end
  end.

(** Truth value of a string: [if line:] *)
Definition truthy (s : string) : bool :=
  match s with
  | "" => false
  | String _ _ => true
  end.

(** [re.search(pat, s)] for a pattern without metacharacters *)
Fixpoint search (pat s : string) : bool :=
  String.prefix pat s ||
  match s with
  | "" => false
  | String _ s' => search pat s'
  end.

(** [f'{n}'] for a non-negative integer *)
Definition of_nat (n : nat) : string :=
  NilEmpty.string_of_uint (Nat.to_uint n).

Fixpoint count (c : ascii) (s : string) : nat :=
  match s with
  | "" => 0
  | String c' s' => (if Ascii.eqb c' c then 1 else 0) + count c s'
  end.

(** the character occurs nowhere in the string *)
Definition free_of (c : ascii) (s : string) : Prop := count c s = 0.

(** the text before the first [c], all of it when there is none *)
Fixpoint before (c : ascii) (s : string) : string :=
  match s with
  | "" => ""
  | String a s' => if Ascii.eqb a c then "" else String a (before c s')
  end.

(** the text after the first [c], nothing when there is none *)
Fixpoint after (c : ascii) (s : string) : string :=
  match s with
  | "" => ""
  | String a s' => if Ascii.eqb a c then s' else after c s'
  end.

(** [s.replace(c, c')] for one-character strings *)
Fixpoint replace (c c' : ascii) (s : string) : string :=
  match s with
  | "" => ""
  | String a s' => String (if Ascii.eqb a c then c' else a) (replace c c' s')
  end.

(** The text of a file made of the given lines, each one terminated. *)
Definition unlines (ls : list string) : string :=
  fold_right (fun l acc => l ++ NL ++ acc) "" ls.

End Str.

(** ** Python dictionaries *)

Module Dict.

Definition t (V : Type) := list (string * V).

Definition empty {V} : t V := [].

(** [d.get(k)] *)
Fixpoint get {V} (k : string) (d : t V) : option V :=
  match d with
  | [] => None
  | (k', v) :: d' => if String.eqb k k' then Some v else get k d'
  end.

(** [k in d] *)
Definition mem {V} (k : string) (d : t V) : bool :=
  match get k d with
  | Some _ => true
  | None => false
  end.

(** [d[k] = v]: an existing key keeps its position, a new one goes last. *)
Fixpoint set {V} (k : string) (v : V) (d : t V) : t V :=
  match d with
  | [] => [(k, v)]
  | (k', v') :: d' =>
      if String.eqb k k' then (k, v) :: d' else (k', v') :: set k v d'
  end.

Definition keys {V} (d : t V) : list string := map fst d.

Definition items {V} (d : t V) : list (string * V) := d.

(** [{k: v for (k, v) in kvs}] *)
Definition comprehension {V} (kvs : list (string * V)) : t V :=
  fold_left (fun d kv => set (fst kv) (snd kv) d) kvs empty.

(** the invariant of the representation *)
Definition wf {V} (d : t V) : Prop := NoDup (keys d).

End Dict.

(** ** The three parsers *)

(** [convert_abstracts_to_standoff], lines 69-71. *)
Definition convert_abstracts_to_standoff (f : string) : Dict.t string :=
  let file_contents := Str.split Str.nl (Str.strip f) in
  Dict.comprehension
    (map (fun abst =>
            (hd "" (Str.split Str.tab abst),
             Str.join Str.NL (tl (Str.split Str.tab abst))))
         file_contents).

(** The two statements shared by the entity and the relation loop:
    [if pmid not in converted: converted[pmid] = []] and then
    [converted[pmid].append(ann)].  The lookup of the second statement cannot
    fail, the key having just been ensured. *)
Definition append_annotation (pmid ann : string)
  (converted : Dict.t (list string)) : Dict.t (list string) :=
  let converted :=
    if negb (Dict.mem pmid converted) then Dict.set pmid [] converted
    else converted in
  match Dict.get pmid converted with
  | Some anns => Dict.set pmid (anns ++ [ann])%list converted
  | None => converted
  end.

(** [f'{T}\t{label} {start_offset} {end_offset}\t{text}'] *)
Definition format_entity (T label start_offset end_offset text : string)
  : string :=
  T ++ Str.TAB ++ label ++ " " ++ start_offset ++ " " ++ end_offset
    ++ Str.TAB ++ text.

(** The body of the loop of [convert_entities_to_standoff], lines 89-95. *)
Definition entities_body (converted_entities : Dict.t (list string))
  (line : string) : result (Dict.t (list string)) :=
  if Str.truthy line then
    match Str.split Str.tab (Str.strip line) with
    | [pmid; T; label; start_offset; end_offset; text] =>
        Ok (append_annotation pmid
              (format_entity T label start_offset end_offset text)
              converted_entities)
    | _ => Raise ValueError
    end
  else Ok converted_entities.

(** [{pmid: '\n'.join(anns) for (pmid, anns) in converted.items()}] *)
Definition join_annotations (converted : Dict.t (list string))
  : Dict.t string :=
  Dict.comprehension
    (map (fun kv => (fst kv, Str.join Str.NL (snd kv))) (Dict.items converted)).

(** [convert_entities_to_standoff], lines 86-100. *)
Definition convert_entities_to_standoff (f : string)
  : result (Dict.t string) :=
  bind (for_each entities_body (Str.readlines f) Dict.empty)
       (fun converted_entities => Ok (join_annotations converted_entities)).

(** [f'R{R}\t{label} {arg_1} {arg_2}'] *)
Definition format_relation (R : nat) (label arg_1 arg_2 : string) : string :=
  "R" ++ Str.of_nat R ++ Str.TAB ++ label ++ " " ++ arg_1 ++ " " ++ arg_2.

(** The body of the loop of [convert_relations_to_standoff], lines 119-128.
    The state is the pair of the counter [R] and the dictionary. *)
Definition relations_body (st : nat * Dict.t (list string)) (line : string)
  : result (nat * Dict.t (list string)) :=
  let '(R, converted_relations) := st in
  if Str.truthy line then
    match Str.split Str.tab (Str.strip line) with
    | [pmid; label; arg_1; arg_2] =>
        let R := if Dict.mem pmid converted_relations then R else 1 in
        Ok (R + 1,
            append_annotation pmid (format_relation R label arg_1 arg_2)
              converted_relations)
    | _ => Raise ValueError
    end
  else Ok st.

(** [convert_relations_to_standoff], lines 115-133. *)
Definition convert_relations_to_standoff (f : string)
  : result (Dict.t string) :=
  bind (for_each relations_body (Str.readlines f) (1, Dict.empty))
       (fun st => Ok (join_annotations (snd st))).

(** ** Merging and writing *)

(** [os.path.join(a, b)] of [posixpath] for two components. *)
Definition os_path_join (a b : string) : string :=
  match b with
  | String "/" _ => b
  | _ =>
      match a with
      | "" => a ++ b
      | _ => if String.eqb (substring (String.length a - 1) 1 a) "/"
             then a ++ b
             else a ++ "/" ++ b
      end
  end.

(** One [open(filename, 'w')] followed by [f.write(item)] that succeeded: the
    file name and the content written. *)
Definition write_event : Type := string * string.

(** The body of the loop at lines 50-52 of [main]. *)
Definition merge_body (converted_relations converted_entities : Dict.t string)
  (pmid : string) : Dict.t string :=
  if Dict.mem pmid converted_relations then
    match Dict.get pmid converted_entities,
          Dict.get pmid converted_relations with
    | Some e, Some r => Dict.set pmid (e ++ Str.NL ++ r) converted_entities
    | _, _ => converted_entities
    end
  else converted_entities.

(** Lines 50-52 of [main]: [for pmid in converted_entities: ...]. *)
Definition merge_annotations (converted_entities converted_relations
  : Dict.t string) : Dict.t string :=
  fold_left (merge_body converted_relations) (Dict.keys converted_entities)
            converted_entities.

(** The local variables of [main] that the loop over the files binds. *)
Record locals := Locals {
  converted_entities : option (Dict.t string);
  converted_relations : option (Dict.t string)
}.

(** ** The directory initializer and [main] *)

Definition errno_eqb (a b : errno) : bool :=
  match a, b with
  | EEXIST, EEXIST | EACCES, EACCES | ENOENT, ENOENT | ENOTDIR, ENOTDIR
  | ENOSPC, ENOSPC | EROFS, EROFS => true
  | _, _ => false
  end.

Section OS.

(** The state of the file system, and [os.makedirs] on it: the call
    returns [None] when it created the directory and the [errno] of the
    [OSError] it raised otherwise. *)
Variable World : Type.
Variable os_makedirs : string -> World -> World * option errno.

(** [with open(filename, 'w') as f: f.write(item)]: [None] when the file has
    been written, the [errno] of the [OSError] raised otherwise (a missing
    directory, a name that is a directory, a full or read-only volume). *)
Variable os_write : string -> string -> World -> World * option errno.

(** [make_dir], lines 147-154. *)
Definition make_dir (directory : string) (w : World)
  : World * result unit :=
  match os_makedirs directory w with
  | (w', None) => (w', Ok tt)
  | (w', Some err) =>
      if negb (errno_eqb err EEXIST) then (w', Raise (OSError err))
      else (w', Ok tt)
  end.

(** The loop of [write_to_disk], lines 139-143, over the items of the
    dictionary.  The first write that fails raises and ends the loop; the
    result carries the files written before it.  [output] is
    [kwargs['output']]. *)
Fixpoint write_items (output ext : string) (items : list (string * string))
  (w : World) : World * list write_event * result unit :=
  match items with
  | [] => (w, [], Ok tt)
  | (pmid, item) :: rest =>
      let filename := os_path_join output (pmid ++ "." ++ ext) in
      match os_write filename item w with
      | (w', Some err) => (w', [], Raise (OSError err))
      | (w', None) =>
          let '(w'', written, r) := write_items output ext rest w' in
          (w'', (filename, item) :: written, r)
      end
  end.

(** [write_to_disk], lines 136-143. *)
Definition write_to_disk (output : string) (converted_dict : Dict.t string)
  (ext : string) (w : World) : World * list write_event * result unit :=
  write_items output ext (Dict.items converted_dict) w.

(** The loop at lines 29-47 of [main].  [files] lists, in the order of
    [glob], the path of every [*.tsv] file without its extension (the
    [filename] of the source) next to the content of the file.  The result is
    the state of the file system, the files written on the way, and the
    locals or the exception raised. *)
Fixpoint main_files (output : string) (files : list (string * string))
  (st : locals) (w : World) : World * list write_event * result locals :=
  match files with
  | [] => (w, [], Ok st)
  | (filename, in_file) :: rest =>
      if Str.search "abstracts" filename then
        let converted_abstracts := convert_abstracts_to_standoff in_file in
        match write_to_disk output converted_abstracts "txt" w with
        | (w', written, Raise e) => (w', written, Raise e)
        | (w', written, Ok _) =>
            let '(w'', written', r) := main_files output rest st w' in
            (w'', (written ++ written')%list, r)
        end
      else if Str.search "entities" filename then
        match convert_entities_to_standoff in_file with
        | Ok d =>
            main_files output rest (Locals (Some d) (converted_relations st))
              w
        | Raise e => (w, [], Raise e)
        end
      else if Str.search "gold_standard" filename then
        match convert_relations_to_standoff in_file with
        | Ok d =>
            main_files output rest (Locals (converted_entities st) (Some d))
              w
        | Raise e => (w, [], Raise e)
        end
      else main_files output rest st w
  end.

(** Lines 49-54 of [main].  A variable that no file bound raises
    [UnboundLocalError], a [NameError], where it is first read:
    [converted_entities] at the head of the loop, [converted_relations] in
    its first iteration. *)
Definition main_annotations (output : string) (st : locals) (w : World)
  : World * list write_event * result unit :=
  match converted_entities st with
  | None => (w, [], Raise NameError)
  | Some ents =>
      match converted_relations st with
      | Some rels =>
          write_to_disk output (merge_annotations ents rels) "ann" w
      | None =>
          match ents with
          | [] => write_to_disk output ents "ann" w
          | _ :: _ => (w, [], Raise NameError)
          end
      end
  end.

(** [main], lines 27-54. *)
Definition main (input_files : list (string * string)) (output : string)
  (w : World) : World * list write_event * result unit :=
  match make_dir output w with
  | (w1, Raise e) => (w1, [], Raise e)
  | (w1, Ok _) =>
      match main_files output input_files (Locals None None) w1 with
      | (w2, written, Raise e) => (w2, written, Raise e)
      | (w2, written, Ok st) =>
          let '(w3, written', r) := main_annotations output st w2 in
          (w3, (written ++ written')%list, r)
      end
  end.

End OS.

Arguments make_dir {World} os_makedirs directory w.
Arguments write_items {World} os_write output ext items w.
Arguments write_to_disk {World} os_write output converted_dict ext w.
Arguments main_files {World} os_write output files st w.
Arguments main_annotations {World} os_write output st w.
Arguments main {World} os_makedirs os_write input_files output w.

(** A small file system to run [make_dir] on: the paths that exist, and
    whether the volume is mounted read-only.  A file can be written where
    its directory exists. *)
Record toy_world := ToyWorld {
  existing : list string;
  read_only : bool
}.

Definition toy_makedirs (directory : string) (w : toy_world)
  : toy_world * option errno :=
  if existsb (String.eqb directory) (existing w) then (w, Some EEXIST)
  else if read_only w then (w, Some EROFS)
  else (ToyWorld (directory :: existing w) (read_only w), None).

(** The directory part of a path: what precedes its last slash. *)
Fixpoint toy_dirname (p : string) : string :=
  match p with
  | "" => ""
  | String c p' =>
      if (0 <? Str.count "/" p')%nat then String c (toy_dirname p') else ""
  end.

Definition toy_write (filename item : string) (w : toy_world)
  : toy_world * option errno :=
  if read_only w then (w, Some EROFS)
  else if String.eqb (toy_dirname filename) ""
          || existsb (String.eqb (toy_dirname filename)) (existing w)
  then (ToyWorld (filename :: existing w) (read_only w), None)
  else (w, Some ENOENT).

(** ** The vocabulary of the statements *)

(** A row of tab-separated fields, as the corpus files hold them. *)
Definition tsv (fields : list string) : string := Str.join Str.TAB fields.

(** The list under a key, empty when the key is absent. *)
Definition or_nil (o : option (list string)) : list string :=
  match o with
  | Some l => l
  | None => []
  end.

(** An entity annotation of the corpus, with the document it belongs to. *)
Record entity_row := EntityRow {
  e_pmid : string;
  e_T : string;
  e_label : string;
  e_start_offset : string;
  e_end_offset : string;
  e_text : string
}.

Definition entity_fields (r : entity_row) : list string :=
  [e_pmid r; e_T r; e_label r; e_start_offset r; e_end_offset r; e_text r].

(** The row as it stands in the entity file, without its line terminator. *)
Definition entity_line (r : entity_row) : string := tsv (entity_fields r).

(** The standoff line the spec asks for: local_entity_id, tab, type_label,
    space, start_offset, space, end_offset, tab, surface_text. *)
Definition entity_standoff (r : entity_row) : string :=
  format_entity (e_T r) (e_label r) (e_start_offset r) (e_end_offset r)
                (e_text r).

(** A row the parser reads back field by field: no field holds a tab or a
    newline, and the line neither starts nor ends with whitespace, so that
    [strip] leaves it alone. *)
Definition entity_row_ok (r : entity_row) : Prop :=
  Forall (Str.free_of Str.tab) (entity_fields r)
  /\ Forall (Str.free_of Str.nl) (entity_fields r)
  /\ Str.strip (entity_line r) = entity_line r.

(** The rows of one document, in the order of the file. *)
Definition rows_of (pmid : string) (rows : list entity_row)
  : list entity_row :=
  filter (fun r => String.eqb (e_pmid r) pmid) rows.

(** A row of the relation file: document, label, two arguments. *)
Definition relation_line (pmid label arg_1 arg_2 : string) : string :=
  tsv [pmid; label; arg_1; arg_2].

(** A relation annotation of the corpus: label and two argument
    references. *)
Record relation_row := RelationRow {
  r_label : string;
  r_arg_1 : string;
  r_arg_2 : string
}.

Definition relation_row_line (pmid : string) (r : relation_row) : string :=
  relation_line pmid (r_label r) (r_arg_1 r) (r_arg_2 r).

(** A relation row the parser reads back field by field. *)
Definition relation_row_ok (pmid : string) (r : relation_row) : Prop :=
  Forall (Str.free_of Str.tab) [pmid; r_label r; r_arg_1 r; r_arg_2 r]
  /\ Forall (Str.free_of Str.nl) [pmid; r_label r; r_arg_1 r; r_arg_2 r]
  /\ Str.strip (relation_row_line pmid r) = relation_row_line pmid r.

(** The standoff lines of the relations of one document, numbered from
    [R] on. *)
Fixpoint numbered (R : nat) (rows : list relation_row) : list string :=
  match rows with
  | [] => []
  | r :: rest =>
      format_relation R (r_label r) (r_arg_1 r) (r_arg_2 r)
      :: numbered (S R) rest
  end.

(** A relation file in which the rows of every document are consecutive:
    one group of rows per document. *)
Definition group_lines (g : string * list relation_row) : list string :=
  map (relation_row_line (fst g)) (snd g).

Definition grouped_file (groups : list (string * list relation_row))
  : string :=
  Str.unlines (List.concat (map group_lines groups)).

(** What the loop of the relation parser leaves in the dictionary after the
    rows of one document: its lines appended one by one. *)
Definition append_all (pmid : string) (anns : list string)
  (d : Dict.t (list string)) : Dict.t (list string) :=
  fold_left (fun acc a => append_annotation pmid a acc) anns d.

Definition group_effect (d : Dict.t (list string))
  (g : string * list relation_row) : Dict.t (list string) :=
  append_all (fst g) (numbered 1 (snd g)) d.

(** The files a run of [write_to_disk] that meets no error writes: one per
    entry, in the order of the dictionary. *)
Definition files_of (output : string) (converted_dict : Dict.t string)
  (ext : string) : list write_event :=
  map (fun kv => (os_path_join output (fst kv ++ "." ++ ext), snd kv))
      (Dict.items converted_dict).

(** The file of a document in the output directory:
    [os.path.join(output, f'{pmid}.{ext}')]. *)
Definition ann_path (output pmid : string) : string :=
  os_path_join output (pmid ++ "." ++ "ann").

(** The spec's reading of an abstract row: the document_id is what precedes
    the first tab, the remainder is what follows it, and the body is the
    remainder with every tab turned into a newline. *)
Definition document_id (row : string) : string := Str.before Str.tab row.

Definition remainder (row : string) : string := Str.after Str.tab row.

Definition tabs_to_newlines (s : string) : string :=
  Str.replace Str.tab Str.nl s.

(** The item of the comprehension of the abstract parser for one row. *)
Definition abstract_item (abst : string) : string * string :=
  (hd "" (Str.split Str.tab abst),
   Str.join Str.NL (tl (Str.split Str.tab abst))).

(** The path exists in the small file system. *)
Definition toy_path_exists (d : string) (w : toy_world) : Prop :=
  existsb (String.eqb d) (existing w) = true.

(** The annotation list of a document starts with relation number 1. *)
Definition starts_at_R1 (anns : list string) : Prop :=
  exists label arg_1 arg_2 rest,
    anns = format_relation 1 label arg_1 arg_2 :: rest.

(** Every document of the dictionary of the relation loop starts at 1. *)
Definition numbered_from_R1 (d : Dict.t (list string)) : Prop :=
  forall pmid anns, Dict.get pmid d = Some anns -> starts_at_R1 anns.

(** The text holds whitespace only; the empty text does. *)
Fixpoint all_whitespace (s : string) : bool :=
  match s with
  | "" => true
  | String c s' => Str.isspace c && all_whitespace s'
  end.

(** The entry of an abstract row as the spec words it: document_id and the
    remainder with its tabs turned into newlines. *)
Definition abstract_entry (row : string) : string * string :=
  (document_id row, tabs_to_newlines (remainder row)).

(** The entry of a document after the merge: the entity block, followed by
    a newline and the relation block when the document has relations. *)
Definition merged_entry (rels : Dict.t string) (kv : string * string)
  : string * string :=
  (fst kv,
   match Dict.get (fst kv) rels with
   | Some r => snd kv ++ Str.NL ++ r
   | None => snd kv
   end).

(** How the chain of tests of [main] classifies a file name: the first
    pattern found decides. *)
Definition is_entity_file (filename : string) : bool :=
  negb (Str.search "abstracts" filename) && Str.search "entities" filename.

Definition is_relation_file (filename : string) : bool :=
  negb (Str.search "abstracts" filename)
  && negb (Str.search "entities" filename)
  && Str.search "gold_standard" filename.

Definition is_unmatched_file (filename : string) : bool :=
  negb (Str.search "abstracts" filename)
  && negb (Str.search "entities" filename)
  && negb (Str.search "gold_standard" filename).

(** The last character of the text is a newline. *)
Fixpoint ends_with_newline (s : string) : bool :=
  match s with
  | "" => false
  | String c s' =>
      match s' with
      | "" => Ascii.eqb c Str.nl
      | String _ _ => ends_with_newline s'
      end
  end.

(** The write comes from an abstracts file among [files]: it is one of the
    [.txt] files of its mapping. *)
Definition abstract_write (output : string) (files : list (string * string))
  (ev : write_event) : Prop :=
  exists file,
    In file files
    /\ Str.search "abstracts" (fst file) = true
    /\ In ev (files_of output
                (convert_abstracts_to_standoff (snd file)) "txt").

(** The exceptions of the loop over the files: the [ValueError] of a
    parser, or the [OSError] of a write. *)
Definition raised_by_files (e : exn) : Prop :=
  e = ValueError \/ exists err, e = OSError err.

(** The file is an entity or a relation file that does not parse. *)
Definition malformed_file (file : string * string) : Prop :=
  (is_entity_file (fst file) = true
   /\ exists e, convert_entities_to_standoff (snd file) = Raise e)
  \/ (is_relation_file (fst file) = true
      /\ exists e, convert_relations_to_standoff (snd file) = Raise e).

(** What the loops see of a line: whether it is empty, and its text
    without trailing whitespace. *)
Definition same_line (l l' : string) : Prop :=
  Str.truthy l = Str.truthy l' /\ Str.rstrip l = Str.rstrip l'.

(** One iteration of the loop of the relation parser on a well-formed row,
    without the parsing: the counter restarts on a new document. *)
Definition relation_step (st : nat * Dict.t (list string))
  (row : string * relation_row) : nat * Dict.t (list string) :=
  let R := if Dict.mem (fst row) (snd st) then fst st else 1 in
  (R + 1,
   append_annotation (fst row)
     (format_relation R (r_label (snd row)) (r_arg_1 (snd row))
        (r_arg_2 (snd row)))
     (snd st)).

(** The standoff line is that of the relation, under some number. *)
Definition standoff_of (ann : string) (row : string * relation_row) : Prop :=
  exists R,
    ann = format_relation R (r_label (snd row)) (r_arg_1 (snd row))
            (r_arg_2 (snd row)).

(** The relation rows of one document, in the order of the file. *)
Definition relations_of (pmid : string) (rows : list (string * relation_row))
  : list (string * relation_row) :=
  filter (fun row => String.eqb (fst row) pmid) rows.

(** The number of fields the unpacking of a line sees. *)
Definition field_count (line : string) : nat :=
  List.length (Str.split Str.tab (Str.strip line)).

(** ** Sample corpus data *)

(** Sample corpus rows used by the examples below. *)
Definition aspirin : entity_row :=
  EntityRow "PMID1" "T1" "CHEMICAL" "0" "5" "aspirin".

Definition cox2 : entity_row :=
  EntityRow "PMID1" "T2" "GENE" "10" "15" "COX-2".

Definition padded : entity_row :=
  EntityRow "PMID1" "T1" "CHEMICAL" "0" "8" "aspirin ".

Definition five_fields : string := tsv ["PMID1"; "T1"; "CHEMICAL"; "0"; "5"].

Definition seven_fields : string :=
  tsv ["PMID1"; "T1"; "CHEMICAL"; "0"; "5"; "aspirin"; ""].

(** An entity row and a relation row whose last field is empty. *)
Definition entity_no_text : string :=
  tsv ["PMID1"; "T1"; "CHEMICAL"; "0"; "5"; ""].

Definition relation_no_arg : string :=
  tsv ["PMID1"; "CPR:3"; "Arg1:T1"; ""].

Definition interleaved_relations : string :=
  Str.unlines
    [relation_line "PMID1" "CPR:1" "Arg1:T1" "Arg2:T2";
     relation_line "PMID1" "CPR:2" "Arg1:T3" "Arg2:T4";
     relation_line "PMID2" "CPR:3" "Arg1:T5" "Arg2:T6";
     relation_line "PMID1" "CPR:4" "Arg1:T7" "Arg2:T8"].

Definition sample_entities : Dict.t string :=
  [("PMID1", Str.join Str.NL [entity_standoff aspirin; entity_standoff cox2]);
   ("PMID3", entity_standoff cox2)].

Definition sample_relations : Dict.t string :=
  [("PMID1", format_relation 1 "CPR:4" "Arg1:T1" "Arg2:T2");
   ("PMID2", format_relation 1 "CPR:3" "Arg1:T5" "Arg2:T6")].

Definition abstract_1 : string :=
  tsv ["PMID1"; "Aspirin and COX-2"; "We study."].

Definition abstract_2 : string :=
  tsv ["PMID2"; "Another title"; "Another body."].

Definition abstract_1_again : string := tsv ["PMID1"; "Erratum"; "See above."].

Definition abstract_3_padded : string := tsv ["PMID3"; "Title"; "Body. "].

(** An entity of a document whose id holds a slash. *)
Definition nested : entity_row :=
  EntityRow "series/7" "T1" "CHEMICAL" "0" "5" "aspirin".

(** The files of a directory as [glob] may give them: the relation file
    first, the entity file last. *)
Definition relation_file_first : list (string * string) :=
  [("corpus/chemprot_gold_standard",
    Str.unlines [relation_line "PMID1" "CPR:4" "Arg1:T1" "Arg2:T2"]);
   ("corpus/chemprot_abstracts",
    Str.unlines [tsv ["PMID1"; "Aspirin and COX-2"; "We study."]]);
   ("corpus/chemprot_entities",
    Str.unlines [entity_line aspirin; entity_line cox2])].

(** A tab-less line between two abstracts. *)
Definition abstract_rows : list string := [abstract_1; "PMID9"; abstract_2].

(** The rows of [interleaved_relations]. *)
Definition interleaved_rows : list (string * relation_row) :=
  [("PMID1", RelationRow "CPR:1" "Arg1:T1" "Arg2:T2");
   ("PMID1", RelationRow "CPR:2" "Arg1:T3" "Arg2:T4");
   ("PMID2", RelationRow "CPR:3" "Arg1:T5" "Arg2:T6");
   ("PMID1", RelationRow "CPR:4" "Arg1:T7" "Arg2:T8")].

(** A relation file grouped by document: two relations of PMID1, then one
    of PMID2. *)
Definition sample_groups : list (string * list relation_row) :=
  [("PMID1", [RelationRow "CPR:1" "Arg1:T1" "Arg2:T2";
              RelationRow "CPR:2" "Arg1:T3" "Arg2:T4"]);
   ("PMID2", [RelationRow "CPR:3" "Arg1:T5" "Arg2:T6"])].

(** * Properties *)

(** ** Strings *)

Module StrFacts.
Import Str.

Lemma append_nil_r (s : string) : s ++ "" = s.
Proof. induction s as [|c s IH]; simpl; [reflexivity | now rewrite IH]. Qed.

Lemma append_assoc (s t u : string) : (s ++ t) ++ u = s ++ t ++ u.
Proof. induction s as [|c s IH]; simpl; [reflexivity | now rewrite IH]. Qed.

Lemma count_app (c : ascii) (s t : string) :
  count c (s ++ t) = count c s + count c t.
Proof. induction s as [|a s IH]; simpl; [reflexivity | rewrite IH; lia]. Qed.

Lemma free_of_cons (c a : ascii) (s : string) :
  free_of c (String a s) -> Ascii.eqb a c = false /\ free_of c s.
Proof.
  unfold free_of; simpl. destruct (Ascii.eqb a c); [discriminate | auto].
Qed.

Lemma free_of_app (c : ascii) (s t : string) :
  free_of c (s ++ t) <-> free_of c s /\ free_of c t.
Proof. unfold free_of. rewrite count_app. lia. Qed.

Lemma split_not_nil (c : ascii) (s : string) : split c s <> [].
Proof.
  destruct s as [|a s]; simpl; [discriminate|].
  destruct (Ascii.eqb a c); [discriminate|].
  destruct (split c s); discriminate.
Qed.

(** The number of fields is one more than the number of separators. *)
Lemma split_length (c : ascii) (s : string) :
  List.length (split c s) = S (count c s).
Proof.
  induction s as [|a s IH]; simpl; [reflexivity|].
  destruct (Ascii.eqb a c); simpl; [now rewrite IH|].
  destruct (split c s) eqn:E; simpl in *; [discriminate | exact IH].
Qed.

Lemma split_free (c : ascii) (s : string) :
  free_of c s -> split c s = [s].
Proof.
  induction s as [|a s IH]; intros H; simpl; [reflexivity|].
  apply free_of_cons in H as [Ha Hs]. rewrite Ha, (IH Hs). reflexivity.
Qed.

Lemma split_app_sep (c : ascii) (x rest : string) :
  free_of c x -> split c (x ++ String c rest) = x :: split c rest.
Proof.
  induction x as [|a x IH]; intros H; simpl.
  - now rewrite Ascii.eqb_refl.
  - apply free_of_cons in H as [Ha Hx]. rewrite Ha, (IH Hx). reflexivity.
Qed.

(** Splitting undoes joining when no field holds the separator. *)
Lemma split_join (c : ascii) (xs : list string) :
  xs <> [] -> Forall (free_of c) xs ->
  split c (join (String c "") xs) = xs.
Proof.
  induction xs as [|x xs IH]; intros Hne HF; [congruence|].
  inversion HF as [|? ? Hx Hxs]; subst.
  destruct xs as [|y ys].
  - simpl. now apply split_free.
  - change (join (String c "") (x :: y :: ys))
      with (x ++ String c (join (String c "") (y :: ys))).
    rewrite (split_app_sep _ _ _ Hx), IH;
      [reflexivity | discriminate | exact Hxs].
Qed.

Lemma hd_split (c : ascii) (s : string) : hd "" (split c s) = before c s.
Proof.
  induction s as [|a s IH]; simpl; [reflexivity|].
  destruct (Ascii.eqb a c); [reflexivity|].
  destruct (split c s) as [|f fs]; simpl in *; now rewrite <- IH.
Qed.

(** The first field is the text before the first separator, the other
    fields are those of the text after it. *)
Lemma split_before_after (c : ascii) (s : string) :
  0 < count c s -> split c s = before c s :: split c (after c s).
Proof.
  induction s as [|a s IH]; simpl; [lia|].
  destruct (Ascii.eqb a c); [reflexivity|].
  intros H. now rewrite (IH H).
Qed.

Lemma join_cons_char (sep : string) (a : ascii) (f : string)
  (fs : list string) :
  join sep (String a f :: fs) = String a (join sep (f :: fs)).
Proof. destruct fs; reflexivity. Qed.

(** Joining the fields with another character replaces the separator. *)
Lemma join_split_replace (c c' : ascii) (s : string) :
  join (String c' "") (split c s) = replace c c' s.
Proof.
  induction s as [|a s IH]; simpl; [reflexivity|].
  pose proof (split_not_nil c s) as Hne.
  destruct (split c s) as [|f fs]; [congruence|].
  destruct (Ascii.eqb a c).
  - change (join (String c' "") ("" :: f :: fs))
      with (String c' (join (String c' "") (f :: fs))).
    now rewrite IH.
  - now rewrite join_cons_char, IH.
Qed.

(** After a final separator comes one more field, the empty one. *)
Lemma split_snoc_sep_last (c : ascii) (p d : string) :
  last (split c (p ++ String c "")) d = "".
Proof.
  induction p as [|a p IH]; simpl.
  - now rewrite Ascii.eqb_refl.
  - pose proof (split_length c (p ++ String c "")) as Hlen.
    rewrite count_app in Hlen. simpl in Hlen. rewrite Ascii.eqb_refl in Hlen.
    destruct (split c (p ++ String c "")) as [|x [|y ys]];
      simpl in Hlen; try lia.
    destruct (Ascii.eqb a c); exact IH.
Qed.

Lemma count_lstrip (c : ascii) (s : string) : count c (lstrip s) <= count c s.
Proof.
  induction s as [|a s IH]; simpl; [lia|].
  destruct (isspace a); simpl; lia.
Qed.

Lemma count_rstrip (c : ascii) (s : string) : count c (rstrip s) <= count c s.
Proof.
  induction s as [|a s IH]; simpl; [lia|].
  destruct (rstrip s) eqn:E.
  - destruct (isspace a); simpl in *; lia.
  - simpl in *. lia.
Qed.

Lemma count_strip (c : ascii) (s : string) : count c (strip s) <= count c s.
Proof.
  unfold strip. etransitivity; [apply count_lstrip | apply count_rstrip].
Qed.

(** A trailing whitespace character is invisible to [rstrip]. *)
Lemma rstrip_snoc_space (s : string) (c : ascii) :
  isspace c = true -> rstrip (s ++ String c "") = rstrip s.
Proof.
  intros Hc. induction s as [|a s IH]; simpl.
  - now rewrite Hc.
  - now rewrite IH.
Qed.

Lemma strip_snoc_space (s : string) (c : ascii) :
  isspace c = true -> strip (s ++ String c "") = strip s.
Proof. intros Hc. unfold strip. now rewrite rstrip_snoc_space. Qed.

Lemma strip_line (l : string) : strip (l ++ NL) = strip l.
Proof. apply strip_snoc_space. reflexivity. Qed.

(** Iterating over a file never yields the empty string. *)
Lemma readlines_truthy (s : string) :
  Forall (fun line => truthy line = true) (readlines s).
Proof.
  induction s as [|a s IH]; simpl; [constructor|].
  destruct (Ascii.eqb a nl); [constructor; [reflexivity | exact IH]|].
  destruct (readlines s) as [|l ls].
  - constructor; [reflexivity | constructor].
  - inversion IH; subst. constructor; [reflexivity | assumption].
Qed.

Lemma readlines_line (l rest : string) :
  free_of nl l ->
  readlines (l ++ String nl rest) = (l ++ NL) :: readlines rest.
Proof.
  induction l as [|a l IH]; intros H; simpl.
  - reflexivity.
  - apply free_of_cons in H as [Ha Hl]. rewrite Ha, (IH Hl). reflexivity.
Qed.

Lemma unlines_join (ls : list string) :
  ls <> [] -> unlines ls = join NL ls ++ NL.
Proof.
  induction ls as [|l ls IH]; intros Hne; [congruence|].
  destruct ls as [|l' ls'].
  - reflexivity.
  - change (unlines (l :: l' :: ls')) with (l ++ NL ++ unlines (l' :: ls')).
    rewrite IH by discriminate.
    change (join NL (l :: l' :: ls')) with (l ++ NL ++ join NL (l' :: ls')).
    now rewrite !append_assoc.
Qed.

Lemma readlines_unlines (ls : list string) :
  Forall (free_of nl) ls ->
  readlines (unlines ls) = map (fun l => l ++ NL) ls.
Proof.
  induction 1 as [|l ls Hl _ IH]; simpl; [reflexivity|].
  change (l ++ NL ++ unlines ls) with (l ++ String nl (unlines ls)).
  now rewrite (readlines_line _ _ Hl), IH.
Qed.

End StrFacts.

(** ** Dictionaries *)

Module DictFacts.
Import Dict.

Section Facts.
Variable V : Type.
Implicit Types (d : t V) (k : string) (v : V).

Lemma get_set_eq k v d : get k (set k v d) = Some v.
Proof.
  induction d as [|[k' v'] d IH]; simpl.
  - now rewrite String.eqb_refl.
  - destruct (String.eqb k k') eqn:E; simpl; rewrite ?String.eqb_refl, ?E;
      [reflexivity | exact IH].
Qed.

Lemma get_set_ne k k' v d : k' <> k -> get k' (set k v d) = get k' d.
Proof.
  intros Hne. induction d as [|[k0 v0] d IH]; simpl.
  - apply String.eqb_neq in Hne. now rewrite Hne.
  - destruct (String.eqb k k0) eqn:E; simpl.
    + apply String.eqb_eq in E; subst k0.
      apply String.eqb_neq in Hne. now rewrite Hne.
    + now rewrite IH.
Qed.

Lemma get_In k v d : get k d = Some v -> In (k, v) d.
Proof.
  induction d as [|[k' v'] d IH]; simpl; [discriminate|].
  destruct (String.eqb k k') eqn:E.
  - apply String.eqb_eq in E; subst. intros [= ->]. now left.
  - intros H. right. now apply IH.
Qed.

Lemma get_None_keys k d : get k d = None <-> ~ In k (keys d).
Proof.
  induction d as [|[k' v'] d IH]; simpl; [tauto|].
  destruct (String.eqb k k') eqn:E.
  - apply String.eqb_eq in E; subst. split; [discriminate | tauto].
  - apply String.eqb_neq in E. rewrite IH. split.
    + intros H [H1 | H1]; [congruence | tauto].
    + tauto.
Qed.

(** Assigning to a key that is present leaves the keys as they are. *)
Lemma keys_set_present k v v0 d :
  get k d = Some v0 -> keys (set k v d) = keys d.
Proof.
  induction d as [|[k' v'] d IH]; simpl; [discriminate|].
  destruct (String.eqb k k') eqn:E; simpl.
  - apply String.eqb_eq in E. now subst.
  - intros H. now rewrite IH.
Qed.

(** Assigning to a new key appends it. *)
Lemma set_absent k v d : get k d = None -> set k v d = (d ++ [(k, v)])%list.
Proof.
  induction d as [|[k' v'] d IH]; simpl; [reflexivity|].
  destruct (String.eqb k k'); [discriminate|].
  intros H. now rewrite IH.
Qed.

Lemma wf_set k v d : wf d -> wf (set k v d).
Proof.
  unfold wf. intros Hd. destruct (get k d) as [v0|] eqn:E.
  - now rewrite (keys_set_present _ v _ _ E).
  - rewrite (set_absent _ v _ E). unfold keys. rewrite map_app. simpl.
    apply get_None_keys in E.
    assert (HA : Add k (map fst d) (map fst d ++ [k])).
    { rewrite <- (app_nil_r (map fst d)) at 1. apply Add_app. }
    apply (NoDup_Add HA). split; assumption.
Qed.

(** A comprehension sees the last item of every key. *)
Lemma get_fold_set_skip k (kvs : list (string * V)) d :
  Forall (fun kv => fst kv <> k) kvs ->
  get k (fold_left (fun d kv => set (fst kv) (snd kv) d) kvs d) = get k d.
Proof.
  intros H. revert d.
  induction H as [|[k' v'] kvs Hk _ IH]; intros d; simpl; [reflexivity|].
  rewrite IH. apply get_set_ne. simpl in Hk. congruence.
Qed.

Lemma get_comprehension_last k v (pre post : list (string * V)) :
  Forall (fun kv => fst kv <> k) post ->
  get k (comprehension (pre ++ (k, v) :: post)) = Some v.
Proof.
  intros H. unfold comprehension. rewrite fold_left_app. simpl.
  rewrite (get_fold_set_skip _ _ _ H). apply get_set_eq.
Qed.

End Facts.

(** Rebuilding a dictionary item by item, with new values, keeps its
    shape. *)
Lemma fold_set_fresh {V} (kvs d : list (string * V)) :
  wf (d ++ kvs)%list ->
  fold_left (fun d kv => set (fst kv) (snd kv) d) kvs d = (d ++ kvs)%list.
Proof.
  revert d. induction kvs as [|[k v] kvs IH]; intros d Hwf; simpl.
  - now rewrite app_nil_r.
  - assert (E : get k d = None).
    { apply get_None_keys. unfold wf, keys in Hwf. rewrite map_app in Hwf.
      simpl in Hwf. apply NoDup_remove_2 in Hwf. intros Hin. apply Hwf.
      apply in_or_app. now left. }
    rewrite (set_absent _ _ v _ E), IH; rewrite <- app_assoc;
      [reflexivity | exact Hwf].
Qed.

Lemma comprehension_map_values {V W} (g : V -> W) (d : t V) :
  wf d ->
  comprehension (map (fun kv => (fst kv, g (snd kv))) (items d))
  = map (fun kv => (fst kv, g (snd kv))) d.
Proof.
  intros Hwf. unfold comprehension, items.
  rewrite fold_set_fresh; [reflexivity|].
  simpl. unfold wf, keys in *. rewrite map_map. simpl. exact Hwf.
Qed.

Lemma get_map_values {V W} (g : V -> W) k (d : t V) :
  get k (map (fun kv => (fst kv, g (snd kv))) d) = option_map g (get k d).
Proof.
  induction d as [|[k' v'] d IH]; simpl; [reflexivity|].
  destruct (String.eqb k k'); [reflexivity | exact IH].
Qed.

End DictFacts.

(** ** Loops that raise *)

Lemma for_each_raises {S X} (body : S -> X -> result S) (e : exn)
  (xs : list X) :
  (forall s x e', body s x = Raise e' -> e' = e) ->
  forall x, In x xs -> (forall s, body s x = Raise e) ->
  forall s, for_each body xs s = Raise e.
Proof.
  intros Honly x Hin Hx. induction xs as [|a xs IH]; intros s; [destruct Hin|].
  simpl. destruct Hin as [-> | Hin].
  - now rewrite Hx.
  - destruct (body s a) as [s'|e'] eqn:E; simpl.
    + now apply IH.
    + now rewrite (Honly _ _ _ E).
Qed.

Lemma for_each_app {S X} (body : S -> X -> result S) (xs ys : list X) (s : S) :
  for_each body (xs ++ ys) s = bind (for_each body xs s) (for_each body ys).
Proof.
  revert s. induction xs as [|x xs IH]; intros s; simpl; [reflexivity|].
  destruct (body s x); simpl; [apply IH | reflexivity].
Qed.

Module ParserFacts.
Import Str StrFacts.

Ltac destruct_fields l :=
  destruct l as [|? [|? [|? [|? [|? [|? [|? ?]]]]]]].

Lemma entities_body_only_ValueError acc line e :
  entities_body acc line = Raise e -> e = ValueError.
Proof.
  unfold entities_body. destruct (truthy line); [|discriminate].
  destruct_fields (split tab (strip line)); congruence.
Qed.

Lemma relations_body_only_ValueError st line e :
  relations_body st line = Raise e -> e = ValueError.
Proof.
  unfold relations_body. destruct st as [R d].
  destruct (truthy line); [|discriminate].
  destruct_fields (split tab (strip line)); congruence.
Qed.

(** Unpacking into six names raises unless there are six values. *)
Lemma entities_body_raises acc line :
  truthy line = true ->
  List.length (split tab (strip line)) <> 6 ->
  entities_body acc line = Raise ValueError.
Proof.
  intros Ht Hn. unfold entities_body. rewrite Ht.
  destruct_fields (split tab (strip line)); simpl in Hn;
    solve [reflexivity | lia].
Qed.

Lemma relations_body_raises st line :
  truthy line = true ->
  List.length (split tab (strip line)) <> 4 ->
  relations_body st line = Raise ValueError.
Proof.
  intros Ht Hn. unfold relations_body. destruct st as [R d]. rewrite Ht.
  destruct_fields (split tab (strip line)); simpl in Hn;
    solve [reflexivity | lia].
Qed.

Lemma In_readlines_truthy f line :
  In line (readlines f) -> truthy line = true.
Proof.
  intros Hin. pose proof (readlines_truthy f) as HF.
  rewrite Forall_forall in HF. now apply HF.
Qed.

(** One line with the wrong number of fields makes the whole parse fail,
    wherever it stands in the file. *)
Lemma entities_bad_line f line :
  In line (readlines f) ->
  List.length (split tab (strip line)) <> 6 ->
  convert_entities_to_standoff f = Raise ValueError.
Proof.
  intros Hin Hn. unfold convert_entities_to_standoff.
  rewrite (for_each_raises entities_body ValueError (readlines f)
             (fun s x e => @entities_body_only_ValueError s x e) line Hin);
    [reflexivity|].
  intros s. apply entities_body_raises; [|exact Hn].
  now apply In_readlines_truthy with f.
Qed.

Lemma relations_bad_line f line :
  In line (readlines f) ->
  List.length (split tab (strip line)) <> 4 ->
  convert_relations_to_standoff f = Raise ValueError.
Proof.
  intros Hin Hn. unfold convert_relations_to_standoff.
  rewrite (for_each_raises relations_body ValueError (readlines f)
             (fun s x e => @relations_body_only_ValueError s x e) line Hin);
    [reflexivity|].
  intros s. apply relations_body_raises; [|exact Hn].
  now apply In_readlines_truthy with f.
Qed.

(** A blank line is one field, the empty one: both parsers raise on it. *)
Lemma blank_line_raises f line :
  In line (readlines f) -> strip line = "" ->
  convert_entities_to_standoff f = Raise ValueError
  /\ convert_relations_to_standoff f = Raise ValueError.
Proof.
  intros Hin Hb. split;
    [apply entities_bad_line with line | apply relations_bad_line with line];
    try assumption; rewrite Hb; simpl; lia.
Qed.

(** Stripping a row that ends in a tab loses at least that tab. *)
Lemma fields_after_trailing_tab (p : string) :
  List.length (split tab (strip (p ++ TAB)))
  < List.length (split tab (p ++ TAB)).
Proof.
  unfold TAB. rewrite strip_snoc_space by reflexivity.
  rewrite !split_length, count_app. simpl.
  pose proof (count_strip tab p). lia.
Qed.

End ParserFacts.

(** ** Accumulating annotations *)

Module AppendFacts.
Import Dict DictFacts.

Lemma get_append_eq k a d :
  get k (append_annotation k a d) = Some (or_nil (get k d) ++ [a])%list.
Proof.
  unfold append_annotation, mem. destruct (get k d) as [l|] eqn:E; simpl.
  - rewrite E. apply get_set_eq.
  - rewrite get_set_eq. apply get_set_eq.
Qed.

Lemma get_append_ne k k' a d :
  k' <> k -> get k' (append_annotation k a d) = get k' d.
Proof.
  intros Hne. unfold append_annotation, mem.
  destruct (get k d) as [l|] eqn:E; simpl.
  - rewrite E. now apply get_set_ne.
  - rewrite get_set_eq. rewrite !get_set_ne by assumption. reflexivity.
Qed.

Lemma wf_append k a d : wf d -> wf (append_annotation k a d).
Proof.
  intros Hd. unfold append_annotation, mem.
  destruct (get k d) as [l|] eqn:E; simpl.
  - rewrite E. now apply wf_set.
  - rewrite get_set_eq. now repeat apply wf_set.
Qed.

(** What a run of appends leaves under a key: the annotations that were
    there, then the new ones of that key in the order of the run. *)
Lemma get_fold_append {R} (key ann : R -> string) (rows : list R) d k :
  get k (fold_left (fun acc r => append_annotation (key r) (ann r) acc)
                   rows d)
  = match map ann (filter (fun r => String.eqb (key r) k) rows) with
    | [] => get k d
    | new => Some (or_nil (get k d) ++ new)%list
    end.
Proof.
  revert d. induction rows as [|r rows IH]; intros d; simpl; [reflexivity|].
  rewrite IH. destruct (String.eqb (key r) k) eqn:E.
  - apply String.eqb_eq in E. subst k. rewrite get_append_eq. simpl.
    destruct (map ann (filter (fun r0 => String.eqb (key r0) (key r)) rows));
      simpl; [reflexivity|].
    now rewrite <- app_assoc.
  - apply String.eqb_neq in E.
    rewrite get_append_ne by congruence. reflexivity.
Qed.

Lemma wf_fold_append {R} (key ann : R -> string) (rows : list R) d :
  wf d ->
  wf (fold_left (fun acc r => append_annotation (key r) (ann r) acc) rows d).
Proof.
  revert d. induction rows as [|r rows IH]; intros d Hd; simpl;
    [assumption|].
  apply IH. now apply wf_append.
Qed.

(** The final comprehension joins each list and keeps the keys. *)
Lemma get_join_annotations k d :
  wf d ->
  get k (join_annotations d) = option_map (Str.join Str.NL) (get k d).
Proof.
  intros Hd. unfold join_annotations.
  rewrite (comprehension_map_values (Str.join Str.NL) d Hd).
  apply get_map_values.
Qed.

End AppendFacts.

(** ** The entity parser on well-formed rows *)

Module EntityFacts.
Import Str StrFacts Dict DictFacts AppendFacts.

Lemma truthy_snoc s c : truthy (s ++ String c "") = true.
Proof. destruct s; reflexivity. Qed.

Lemma free_of_join c sep xs :
  free_of c sep -> Forall (free_of c) xs -> free_of c (join sep xs).
Proof.
  intros Hsep. induction 1 as [|x xs Hx Hxs IH]; [reflexivity|].
  destruct xs as [|y ys]; [exact Hx|].
  change (join sep (x :: y :: ys)) with (x ++ sep ++ join sep (y :: ys)).
  rewrite !free_of_app. auto.
Qed.

Lemma entity_line_free_of_nl r :
  entity_row_ok r -> free_of nl (entity_line r).
Proof.
  intros (_ & Hnl & _). apply free_of_join; [reflexivity | exact Hnl].
Qed.

(** One iteration of the loop on a well-formed row. *)
Lemma entities_body_row acc r :
  entity_row_ok r ->
  entities_body acc (entity_line r ++ NL)
  = Ok (append_annotation (e_pmid r) (entity_standoff r) acc).
Proof.
  intros (Htab & _ & Hstrip). unfold entities_body.
  unfold NL at 1. rewrite truthy_snoc.
  rewrite strip_line, Hstrip. unfold entity_line, tsv, TAB.
  rewrite split_join; [reflexivity | discriminate | exact Htab].
Qed.

Lemma for_each_entity_rows rows acc :
  Forall entity_row_ok rows ->
  for_each entities_body (map (fun r => entity_line r ++ NL) rows) acc
  = Ok (fold_left
          (fun acc r => append_annotation (e_pmid r) (entity_standoff r) acc)
          rows acc).
Proof.
  intros H. revert acc.
  induction H as [|r rows Hr _ IH]; intros acc; simpl; [reflexivity|].
  rewrite (entities_body_row acc r Hr). simpl. apply IH.
Qed.

End EntityFacts.

(** ** The relation parser on a file grouped by document *)

Module RelationFacts.
Import Str StrFacts Dict DictFacts AppendFacts.

Lemma relation_line_free_of_nl pmid r :
  relation_row_ok pmid r -> free_of nl (relation_row_line pmid r).
Proof.
  intros (_ & Hnl & _). apply EntityFacts.free_of_join;
    [reflexivity | exact Hnl].
Qed.

(** One iteration of the loop on a well-formed row. *)
Lemma relations_body_row R d pmid r :
  relation_row_ok pmid r ->
  relations_body (R, d) (relation_row_line pmid r ++ NL)
  = let R' := if mem pmid d then R else 1 in
    Ok (R' + 1,
        append_annotation pmid
          (format_relation R' (r_label r) (r_arg_1 r) (r_arg_2 r)) d).
Proof.
  intros (Htab & _ & Hstrip). unfold relations_body.
  unfold NL at 1. rewrite EntityFacts.truthy_snoc.
  rewrite strip_line, Hstrip.
  unfold relation_row_line, relation_line, tsv, TAB.
  rewrite split_join; [reflexivity | discriminate | exact Htab].
Qed.

Lemma mem_append pmid a d : mem pmid (append_annotation pmid a d) = true.
Proof. unfold mem. now rewrite get_append_eq. Qed.

(** The rows of a document that is already known go on counting. *)
Lemma for_each_known_document pmid rows R d :
  Forall (relation_row_ok pmid) rows ->
  mem pmid d = true ->
  for_each relations_body
    (map (fun l => l ++ NL) (map (relation_row_line pmid) rows)) (R, d)
  = Ok (R + List.length rows, append_all pmid (numbered R rows) d).
Proof.
  intros H. revert R d.
  induction H as [|r rows Hr _ IH]; intros R d Hmem; cbn [map for_each].
  - cbn. now rewrite Nat.add_0_r.
  - rewrite (relations_body_row R d pmid r Hr). cbn [bind]. rewrite Hmem.
    rewrite IH by apply mem_append.
    cbn [numbered append_all fold_left List.length].
    replace (R + 1 + List.length rows) with (R + S (List.length rows)) by lia.
    replace (R + 1) with (S R) by lia. reflexivity.
Qed.

(** The rows of a new document are numbered from 1. *)
Lemma for_each_new_document pmid rows R d :
  Forall (relation_row_ok pmid) rows ->
  mem pmid d = false ->
  exists R',
    for_each relations_body
      (map (fun l => l ++ NL) (map (relation_row_line pmid) rows)) (R, d)
    = Ok (R', append_all pmid (numbered 1 rows) d).
Proof.
  intros H Hmem. destruct H as [|r rows Hr Hrows].
  - exists R. reflexivity.
  - cbn [map for_each]. rewrite (relations_body_row R d pmid r Hr).
    cbn [bind]. rewrite Hmem.
    rewrite (for_each_known_document pmid rows 2 _ Hrows (mem_append _ _ _)).
    eexists. reflexivity.
Qed.

Lemma get_append_all_ne pmid k anns d :
  k <> pmid -> get k (append_all pmid anns d) = get k d.
Proof.
  intros Hne. revert d. unfold append_all.
  induction anns as [|a anns IH]; intros d; simpl; [reflexivity|].
  rewrite IH. now apply get_append_ne.
Qed.

Lemma get_append_all_eq pmid a anns d :
  get pmid (append_all pmid (a :: anns) d)
  = Some (or_nil (get pmid d) ++ a :: anns)%list.
Proof.
  revert a d. unfold append_all.
  induction anns as [|b anns IH]; intros a d; simpl.
  - apply get_append_eq.
  - simpl in IH. rewrite IH, get_append_eq. simpl.
    now rewrite <- app_assoc.
Qed.

Lemma wf_append_all pmid anns d : wf d -> wf (append_all pmid anns d).
Proof.
  revert d. unfold append_all.
  induction anns as [|a anns IH]; intros d Hd; simpl; [assumption|].
  apply IH. now apply wf_append.
Qed.

Lemma wf_groups groups d : wf d -> wf (fold_left group_effect groups d).
Proof.
  revert d. induction groups as [|g groups IH]; intros d Hd; simpl;
    [assumption|].
  apply IH. now apply wf_append_all.
Qed.

Lemma get_groups_skip groups k d :
  ~ In k (map fst groups) -> get k (fold_left group_effect groups d) = get k d.
Proof.
  revert d. induction groups as [|g groups IH]; intros d Hk; simpl;
    [reflexivity|].
  rewrite IH by (intros H; apply Hk; now right).
  apply get_append_all_ne. intros ->. apply Hk. now left.
Qed.

(** Under the key of a group stand the lines of that group alone. *)
Lemma get_groups groups pmid rows d :
  NoDup (map fst groups) -> In (pmid, rows) groups -> rows <> [] ->
  get pmid d = None ->
  get pmid (fold_left group_effect groups d) = Some (numbered 1 rows).
Proof.
  intros Hnd. revert d.
  induction groups as [|g groups IH]; intros d Hin Hne Hd; [destruct Hin|].
  simpl in *. inversion Hnd as [|? ? Hg Hnd']; subst.
  destruct Hin as [-> | Hin].
  - rewrite get_groups_skip by exact Hg.
    unfold group_effect. cbn [fst snd].
    destruct rows as [|r rows]; [congruence|].
    cbn [numbered]. rewrite get_append_all_eq, Hd. reflexivity.
  - apply IH; try assumption.
    unfold group_effect. rewrite get_append_all_ne; [exact Hd|].
    intros ->. apply Hg. now apply (in_map fst groups (fst g, rows)).
Qed.

(** The loop over a whole grouped file. *)
Lemma for_each_groups groups R d :
  NoDup (map fst groups) ->
  Forall (fun g => Forall (relation_row_ok (fst g)) (snd g)) groups ->
  (forall g, In g groups -> get (fst g) d = None) ->
  exists R',
    for_each relations_body
      (map (fun l => l ++ NL) (List.concat (map group_lines groups))) (R, d)
    = Ok (R', fold_left group_effect groups d).
Proof.
  intros Hnd Hok. revert R d.
  induction Hok as [|g groups Hg _ IH]; intros R d Hnew;
    cbn [map List.concat fold_left].
  - exists R. reflexivity.
  - inversion Hnd as [|? ? Hfresh Hnd']; subst.
    rewrite map_app, for_each_app.
    assert (Hmem : mem (fst g) d = false).
    { unfold mem. now rewrite (Hnew g (or_introl eq_refl)). }
    destruct (for_each_new_document (fst g) (snd g) R d Hg Hmem) as [R1 E1].
    unfold group_lines at 1. rewrite E1. cbn [bind].
    apply (IH Hnd').
    intros g' Hin. unfold group_effect. rewrite get_append_all_ne.
    + apply Hnew. now right.
    + intros Heq. apply Hfresh. rewrite <- Heq. now apply in_map.
Qed.

(** X1.  When the rows of every document of a relation file are
    consecutive, and the rows are well formed, the relation parser succeeds
    and numbers the relations of every document R1, R2, ... on its own. *)
Lemma relations_numbered_when_grouped groups :
  NoDup (map fst groups) ->
  Forall (fun g => Forall (relation_row_ok (fst g)) (snd g)) groups ->
  exists out,
    convert_relations_to_standoff (grouped_file groups) = Ok out
    /\ forall pmid rows,
         In (pmid, rows) groups -> rows <> [] ->
         get pmid out = Some (join NL (numbered 1 rows)).
Proof.
  intros Hnd Hok.
  destruct (for_each_groups groups 1 empty Hnd Hok (fun _ _ => eq_refl))
    as [R' E].
  eexists. split.
  - unfold convert_relations_to_standoff, grouped_file.
    rewrite readlines_unlines.
    + rewrite E. reflexivity.
    + rewrite Forall_concat, Forall_map. revert Hok. apply Forall_impl.
      intros g Hg. unfold group_lines. rewrite Forall_map.
      revert Hg. apply Forall_impl. intros r.
      apply relation_line_free_of_nl.
  - intros pmid rows Hin Hne. simpl.
    rewrite get_join_annotations by (apply wf_groups; constructor).
    now rewrite (get_groups groups pmid rows empty Hnd Hin Hne eq_refl).
Qed.

End RelationFacts.

(** ** Merging *)

Module MergeFacts.
Import Dict DictFacts.

Lemma get_merge_body_other rels m k d :
  d <> k -> get d (merge_body rels m k) = get d m.
Proof.
  intros Hne. unfold merge_body. destruct (mem k rels); [|reflexivity].
  destruct (get k m); [|reflexivity].
  destruct (get k rels); [|reflexivity].
  now apply get_set_ne.
Qed.

Lemma keys_merge_body rels m k : keys (merge_body rels m k) = keys m.
Proof.
  unfold merge_body. destruct (mem k rels); [|reflexivity].
  destruct (get k m) as [e|] eqn:E; [|reflexivity].
  destruct (get k rels); [|reflexivity].
  now apply keys_set_present with e.
Qed.

Lemma get_fold_merge_skip rels ks m d :
  ~ In d ks -> get d (fold_left (merge_body rels) ks m) = get d m.
Proof.
  revert m. induction ks as [|k ks IH]; intros m Hd; simpl; [reflexivity|].
  rewrite IH by (intros H; apply Hd; now right).
  apply get_merge_body_other. intros ->. apply Hd. now left.
Qed.

Lemma keys_fold_merge rels ks m :
  keys (fold_left (merge_body rels) ks m) = keys m.
Proof.
  revert m. induction ks as [|k ks IH]; intros m; simpl; [reflexivity|].
  rewrite IH. apply keys_merge_body.
Qed.

(** The merge rewrites values only: the documents are those of the
    entities, in the same order. *)
Lemma keys_merge ents rels : keys (merge_annotations ents rels) = keys ents.
Proof. apply keys_fold_merge. Qed.

Lemma get_fold_merge_entity_only rels ks m d :
  get d rels = None -> get d (fold_left (merge_body rels) ks m) = get d m.
Proof.
  intros Hr. revert m. induction ks as [|k ks IH]; intros m; simpl;
    [reflexivity|].
  rewrite IH. destruct (String.eqb_spec d k) as [-> | Hne].
  - unfold merge_body, mem. now rewrite Hr.
  - now apply get_merge_body_other.
Qed.

(** A document without relations keeps its entity block. *)
Lemma get_merge_entity_only ents rels d :
  get d rels = None ->
  get d (merge_annotations ents rels) = get d ents.
Proof. apply get_fold_merge_entity_only. Qed.

Lemma get_fold_merge_both rels ks m d e r :
  NoDup ks -> In d ks -> get d m = Some e -> get d rels = Some r ->
  get d (fold_left (merge_body rels) ks m) = Some (e ++ Str.NL ++ r).
Proof.
  intros Hnd. revert m.
  induction Hnd as [|k ks Hk Hnd IH]; intros m Hin He Hr; [destruct Hin|].
  simpl. destruct (String.eqb_spec k d) as [-> | Hne].
  - rewrite get_fold_merge_skip by exact Hk.
    unfold merge_body, mem. rewrite Hr, He. apply get_set_eq.
  - destruct Hin as [-> | Hin]; [congruence|].
    apply IH; [exact Hin | | exact Hr].
    rewrite get_merge_body_other by congruence. exact He.
Qed.

(** A document with both kinds gets the entity block, a newline, the
    relation block. *)
Lemma get_merge_both ents rels d e r :
  wf ents -> get d ents = Some e -> get d rels = Some r ->
  get d (merge_annotations ents rels) = Some (e ++ Str.NL ++ r).
Proof.
  intros Hwf He Hr. unfold merge_annotations.
  apply get_fold_merge_both; try assumption.
  destruct (in_dec string_dec d (keys ents)) as [Hin | Hout];
    [exact Hin|].
  apply get_None_keys in Hout. congruence.
Qed.

Lemma In_files_of output d ext k v :
  get k d = Some v ->
  In (os_path_join output (k ++ "." ++ ext), v) (files_of output d ext).
Proof.
  intros H. unfold files_of, items.
  apply (in_map (fun kv => (os_path_join output (fst kv ++ "." ++ ext),
                            snd kv)) d (k, v)).
  now apply get_In.
Qed.

End MergeFacts.

(** ** Writing *)

Module WriteFacts.

Section Writes.

Variable World : Type.
Variable os_write : string -> string -> World -> World * option errno.

(** Whatever happens, the files written are the first ones of the
    dictionary, in its order. *)
Lemma write_items_prefix output ext items w w' written r :
  write_items os_write output ext items w = (w', written, r) ->
  exists rest,
    map (fun kv => (os_path_join output (fst kv ++ "." ++ ext), snd kv)) items
    = (written ++ rest)%list.
Proof.
  revert w w' written r.
  induction items as [|[pmid item] items IH]; intros w w' written r;
    cbn [write_items map fst snd].
  - intros [= <- <- <-]. now exists [].
  - destruct (os_write _ item w)
      as [w1 [err|]]; cbv beta iota.
    + intros [= <- <- <-]. now eexists.
    + destruct (write_items os_write output ext items w1)
        as [[w2 written2] r2] eqn:E.
      intros [= <- <- <-]. destruct (IH _ _ _ _ E) as [rest ->].
      now exists rest.
Qed.

(** A run without error has written every entry. *)
Lemma write_items_ok output ext items w w' written u :
  write_items os_write output ext items w = (w', written, Ok u) ->
  written
  = map (fun kv => (os_path_join output (fst kv ++ "." ++ ext), snd kv)) items.
Proof.
  revert w w' written.
  induction items as [|[pmid item] items IH]; intros w w' written;
    cbn [write_items map fst snd].
  - now intros [= <- <-].
  - destruct (os_write _ item w)
      as [w1 [err|]]; cbv beta iota; [discriminate|].
    destruct (write_items os_write output ext items w1)
      as [[w2 written2] r2] eqn:E.
    intros [= <- <- ->]. now rewrite (IH _ _ _ E).
Qed.

(** The only exception of a write is the [OSError] of the call that
    failed. *)
Lemma write_items_raises output ext items w w' written e :
  write_items os_write output ext items w = (w', written, Raise e) ->
  exists err, e = OSError err.
Proof.
  revert w w' written.
  induction items as [|[pmid item] items IH]; intros w w' written;
    cbn [write_items]; [discriminate|].
  destruct (os_write _ item w)
    as [w1 [err|]]; cbv beta iota.
  - intros [= <- <- <-]. now exists err.
  - destruct (write_items os_write output ext items w1)
      as [[w2 written2] r2] eqn:E.
    intros [= <- <- ->]. now apply (IH _ _ _ E).
Qed.

Lemma write_to_disk_ok output d ext w w' written u :
  write_to_disk os_write output d ext w = (w', written, Ok u) ->
  written = files_of output d ext.
Proof. apply write_items_ok. Qed.

Lemma write_to_disk_In output d ext w w' written r ev :
  write_to_disk os_write output d ext w = (w', written, r) ->
  In ev written -> In ev (files_of output d ext).
Proof.
  intros H Hin. destruct (write_items_prefix _ _ _ _ _ _ _ H) as [rest E].
  unfold files_of. rewrite E. apply in_or_app. now left.
Qed.

Lemma write_to_disk_raises output d ext w w' written e :
  write_to_disk os_write output d ext w = (w', written, Raise e) ->
  exists err, e = OSError err.
Proof. apply write_items_raises. Qed.

End Writes.

End WriteFacts.

(** ** The abstract parser *)

Module AbstractFacts.
Import Str StrFacts Dict DictFacts.

Lemma abstract_item_key abst : fst (abstract_item abst) = document_id abst.
Proof. apply hd_split. Qed.

Lemma abstract_item_body abst :
  0 < count tab abst ->
  snd (abstract_item abst) = tabs_to_newlines (remainder abst).
Proof.
  intros H. unfold abstract_item. simpl.
  rewrite (split_before_after tab abst H). simpl.
  apply join_split_replace.
Qed.

Lemma abstract_item_no_tab abst :
  free_of tab abst -> abstract_item abst = (abst, "").
Proof.
  intros H. unfold abstract_item. now rewrite (split_free tab abst H).
Qed.

(** The entry of a row that no later row overrides. *)
Lemma get_abstract f pre row post :
  split nl (strip f) = (pre ++ row :: post)%list ->
  Forall (fun later => document_id later <> document_id row) post ->
  get (document_id row) (convert_abstracts_to_standoff f)
  = Some (snd (abstract_item row)).
Proof.
  intros Hrows Hpost. unfold convert_abstracts_to_standoff.
  rewrite Hrows, map_app. simpl.
  unfold document_id at 1. rewrite <- hd_split.
  apply (get_comprehension_last string (hd "" (split tab row))
           (join NL (tl (split tab row)))
           (map abstract_item pre) (map abstract_item post)).
  rewrite Forall_map. revert Hpost. apply Forall_impl.
  intros later H. rewrite abstract_item_key, hd_split. exact H.
Qed.

(** The rows the parser sees are those of the file when whitespace neither
    starts the first row nor ends the last one. *)
Lemma rows_of_file rows :
  rows <> [] -> Forall (free_of nl) rows ->
  strip (join NL rows) = join NL rows ->
  split nl (strip (unlines rows)) = rows.
Proof.
  intros Hne Hnl Hstrip.
  rewrite (unlines_join rows Hne), strip_line, Hstrip.
  now apply split_join.
Qed.

End AbstractFacts.

(** ** The small file system *)

Module ToyWorldFacts.

Lemma toy_on_existing d w :
  toy_path_exists d w -> toy_makedirs d w = (w, Some EEXIST).
Proof. unfold toy_path_exists, toy_makedirs. now intros ->. Qed.

Lemma toy_creates d w w' :
  toy_makedirs d w = (w', None) -> toy_path_exists d w'.
Proof.
  unfold toy_makedirs, toy_path_exists.
  destruct (existsb (String.eqb d) (existing w)); [discriminate|].
  destruct (read_only w); [discriminate|].
  intros [= <-]. simpl. now rewrite String.eqb_refl.
Qed.

Lemma toy_eexist d w w' :
  toy_makedirs d w = (w', Some EEXIST) -> toy_path_exists d w'.
Proof.
  unfold toy_makedirs, toy_path_exists.
  destruct (existsb (String.eqb d) (existing w)) eqn:E.
  - now intros [= <-].
  - destruct (read_only w); discriminate.
Qed.

End ToyWorldFacts.

(** ** The whole pipeline on a small corpus *)

(** One abstract, two entities and one relation of the same document give
    one [.txt] file and one [.ann] file, the entities before the relation. *)
Example main_end_to_end :
  main toy_makedirs toy_write
    [("corpus/chemprot_abstracts", Str.unlines [abstract_1]);
     ("corpus/chemprot_entities",
      Str.unlines [entity_line aspirin; entity_line cox2]);
     ("corpus/chemprot_gold_standard",
      Str.unlines [relation_line "PMID1" "CPR:4" "Arg1:T1" "Arg2:T2"])]
    "out" (ToyWorld [] false)
  = (ToyWorld ["out/PMID1.ann"; "out/PMID1.txt"; "out"] false,
     [("out/PMID1.txt", Str.join Str.NL ["Aspirin and COX-2"; "We study."]);
      ("out/PMID1.ann",
       Str.join Str.NL
         [entity_standoff aspirin; entity_standoff cox2;
          format_relation 1 "CPR:4" "Arg1:T1" "Arg2:T2"])],
     Ok tt).
Proof. vm_compute. reflexivity. Qed.

(** Without an entity file the abstracts are written and the merge then
    fails on the unbound variable. *)
Example main_without_entities :
  main toy_makedirs toy_write
    [("corpus/chemprot_abstracts", Str.unlines [abstract_1])]
    "out" (ToyWorld ["out"] false)
  = (ToyWorld ["out/PMID1.txt"; "out"] false,
     [("out/PMID1.txt", Str.join Str.NL ["Aspirin and COX-2"; "We study."])],
     Raise NameError).
Proof. vm_compute. reflexivity. Qed.

(** A document_id that holds a slash names a file in a directory that does
    not exist: the first [open] raises, and the document that follows is
    not written either. *)
Example main_with_nested_document_id :
  main toy_makedirs toy_write
    [("corpus/chemprot_entities",
      Str.unlines [entity_line nested; entity_line aspirin]);
     ("corpus/chemprot_gold_standard", "")]
    "out" (ToyWorld [] false)
  = (ToyWorld ["out"] false, [], Raise (OSError ENOENT)).
Proof. vm_compute. reflexivity. Qed.

(** * The claims *)

Ltac row_ok :=
  repeat split; repeat constructor; vm_compute; reflexivity.

(** C1, the code on an interleaved input.  The counter is one variable for
    the whole file, reset when a document is first met: after the first row
    of PMID2 the third row of PMID1 is numbered 2 again, so PMID1 gets
    R1, R2, R2 where the claim asks for R1, R2, R3. *)
Theorem relation_counter_shared_across_documents :
  convert_relations_to_standoff interleaved_relations
  = Ok [("PMID1",
         Str.join Str.NL
           [format_relation 1 "CPR:1" "Arg1:T1" "Arg2:T2";
            format_relation 2 "CPR:2" "Arg1:T3" "Arg2:T4";
            format_relation 2 "CPR:4" "Arg1:T7" "Arg2:T8"]);
        ("PMID2", format_relation 1 "CPR:3" "Arg1:T5" "Arg2:T6")].
Proof. vm_compute. reflexivity. Qed.

(** C2, as amended.  A document present in the entity mapping and absent
    from the relation mapping keeps its entity block unmodified in the
    merged mapping, and the merged mapping has the documents of the entity
    mapping and no others.  So, when the final [write_to_disk] meets no
    error, the document has its [.ann] file with the entity block, and the
    files written are those of the documents of the entity mapping: a
    document present in the relation mapping only gets no file. *)
Theorem entity_only_document_written (output : string)
  (ents rels : Dict.t string) (pmid e : string) :
  Dict.get pmid ents = Some e ->
  Dict.get pmid rels = None ->
  Dict.get pmid (merge_annotations ents rels) = Some e
  /\ Dict.keys (merge_annotations ents rels) = Dict.keys ents
  /\ forall (World : Type)
            (os_write : string -> string -> World -> World * option errno)
            (w w' : World) (written : list write_event),
       main_annotations os_write output (Locals (Some ents) (Some rels)) w
       = (w', written, Ok tt) ->
       In (ann_path output pmid, e) written
       /\ map fst written = map (ann_path output) (Dict.keys ents).
Proof.
  intros He Hr.
  assert (Hm : Dict.get pmid (merge_annotations ents rels) = Some e)
    by now rewrite MergeFacts.get_merge_entity_only.
  split; [exact Hm|]. split; [apply MergeFacts.keys_merge|].
  intros World os_write w w' written Hrun. cbn in Hrun.
  rewrite (WriteFacts.write_to_disk_ok World os_write _ _ _ _ _ _ _ Hrun).
  split.
  - now apply MergeFacts.In_files_of.
  - unfold files_of, Dict.items. rewrite map_map. cbn [fst].
    rewrite <- (MergeFacts.keys_merge ents rels). unfold Dict.keys.
    now rewrite map_map.
Qed.

Lemma entity_only_document_written_witness :
  Dict.get "PMID3" (merge_annotations sample_entities sample_relations)
  = Some (entity_standoff cox2)
  /\ Dict.keys (merge_annotations sample_entities sample_relations)
     = Dict.keys sample_entities
  /\ In (ann_path "out" "PMID3", entity_standoff cox2)
        (snd (fst (main_annotations toy_write "out"
                     (Locals (Some sample_entities) (Some sample_relations))
                     (ToyWorld ["out"] false)))).
Proof.
  destruct (entity_only_document_written "out" sample_entities
              sample_relations "PMID3" (entity_standoff cox2)
              eq_refl eq_refl) as (Hm & Hk & Hw).
  split; [exact Hm|]. split; [exact Hk|].
  exact (proj1 (Hw toy_world toy_write (ToyWorld ["out"] false) _ _ eq_refl)).
Defined.

(** C2 as stated fails: PMID2 has a relation and no entity, and no file is
    written for it although every write succeeds; only the documents of the
    entity mapping are written. *)
Lemma relation_only_document_dropped :
  Dict.get "PMID2" sample_relations
  = Some (format_relation 1 "CPR:3" "Arg1:T5" "Arg2:T6")
  /\ Dict.get "PMID2" sample_entities = None
  /\ Dict.get "PMID2" (merge_annotations sample_entities sample_relations)
     = None
  /\ exists w' written,
       main_annotations toy_write "out"
         (Locals (Some sample_entities) (Some sample_relations))
         (ToyWorld ["out"] false)
       = (w', written, Ok tt)
       /\ map fst written = ["out/PMID1.ann"; "out/PMID3.ann"].
Proof.
  repeat split. eexists. eexists. split; [vm_compute; reflexivity|].
  reflexivity.
Qed.

(** C3, the code on a file with a blank line.  A line read from a file keeps
    its terminator, so the test [if line] never skips anything: the blank
    line reaches the unpacking, which raises.  Without the blank line the
    same rows parse. *)
Theorem blank_line_not_skipped :
  convert_entities_to_standoff
    (Str.unlines [entity_line aspirin; ""; entity_line cox2])
  = Raise ValueError
  /\ convert_entities_to_standoff
       (Str.unlines [entity_line aspirin; entity_line cox2])
     = Ok [("PMID1",
            Str.join Str.NL [entity_standoff aspirin; entity_standoff cox2])]
  /\ convert_relations_to_standoff
       (Str.unlines
          [relation_line "PMID1" "CPR:1" "Arg1:T1" "Arg2:T2"; ""])
     = Raise ValueError
  /\ convert_relations_to_standoff
       (Str.unlines [relation_line "PMID1" "CPR:1" "Arg1:T1" "Arg2:T2"])
     = Ok [("PMID1", format_relation 1 "CPR:1" "Arg1:T1" "Arg2:T2")].
Proof. repeat split; vm_compute; reflexivity. Qed.

(** C4.  For a document present in the entity mapping and in the relation
    mapping, the merged body is the entity block, one newline, the relation
    block, and that is what the [.ann] file of the document receives when
    the final [write_to_disk] meets no error. *)
Theorem merged_body_entities_first (output : string)
  (ents rels : Dict.t string) (pmid e r : string) :
  Dict.wf ents ->
  Dict.get pmid ents = Some e ->
  Dict.get pmid rels = Some r ->
  Dict.get pmid (merge_annotations ents rels) = Some (e ++ Str.NL ++ r)
  /\ forall (World : Type)
            (os_write : string -> string -> World -> World * option errno)
            (w w' : World) (written : list write_event),
       main_annotations os_write output (Locals (Some ents) (Some rels)) w
       = (w', written, Ok tt) ->
       In (ann_path output pmid, e ++ Str.NL ++ r) written.
Proof.
  intros Hwf He Hr.
  pose proof (MergeFacts.get_merge_both ents rels pmid e r Hwf He Hr) as Hm.
  split; [exact Hm|].
  intros World os_write w w' written Hrun. cbn in Hrun.
  rewrite (WriteFacts.write_to_disk_ok World os_write _ _ _ _ _ _ _ Hrun).
  now apply MergeFacts.In_files_of.
Qed.

Lemma merged_body_entities_first_witness :
  Dict.get "PMID1" (merge_annotations sample_entities sample_relations)
  = Some (Str.join Str.NL
            [entity_standoff aspirin; entity_standoff cox2;
             format_relation 1 "CPR:4" "Arg1:T1" "Arg2:T2"])
  /\ In (ann_path "out" "PMID1",
         Str.join Str.NL
           [entity_standoff aspirin; entity_standoff cox2;
            format_relation 1 "CPR:4" "Arg1:T1" "Arg2:T2"])
        (snd (fst (main_annotations toy_write "out"
                     (Locals (Some sample_entities) (Some sample_relations))
                     (ToyWorld ["out"] false)))).
Proof.
  assert (Hwf : Dict.wf sample_entities)
    by (repeat constructor; simpl; intuition discriminate).
  destruct (merged_body_entities_first "out" sample_entities
              sample_relations "PMID1"
              (Str.join Str.NL [entity_standoff aspirin; entity_standoff cox2])
              (format_relation 1 "CPR:4" "Arg1:T1" "Arg2:T2")
              Hwf eq_refl eq_refl) as [Hm Hw].
  split; [exact Hm|].
  exact (Hw toy_world toy_write (ToyWorld ["out"] false) _ _ eq_refl).
Defined.

(** C5, as amended.  For every entity file whose rows are well formed (six
    fields free of tabs and newlines, on a line that neither starts nor ends
    with whitespace), the parser succeeds and its output for a document_id is
    the newline-join, in input order, of the standoff lines of the rows of
    that document, every field verbatim; a document_id without rows has no
    entry. *)
Theorem entity_parser_preserves_rows (rows : list entity_row) :
  Forall entity_row_ok rows ->
  exists out,
    convert_entities_to_standoff (Str.unlines (map entity_line rows))
    = Ok out
    /\ forall pmid,
         Dict.get pmid out
         = match rows_of pmid rows with
           | [] => None
           | rs => Some (Str.join Str.NL (map entity_standoff rs))
           end.
Proof.
  intros Hok. eexists. split.
  - unfold convert_entities_to_standoff.
    rewrite StrFacts.readlines_unlines.
    + rewrite map_map.
      rewrite (EntityFacts.for_each_entity_rows rows Dict.empty Hok).
      reflexivity.
    + rewrite Forall_map. revert Hok. apply Forall_impl.
      exact EntityFacts.entity_line_free_of_nl.
  - intros pmid.
    rewrite AppendFacts.get_join_annotations
      by (apply AppendFacts.wf_fold_append; constructor).
    rewrite AppendFacts.get_fold_append. unfold rows_of. simpl.
    destruct (filter (fun r => String.eqb (e_pmid r) pmid) rows);
      reflexivity.
Qed.

Lemma entity_parser_preserves_rows_witness :
  Forall entity_row_ok [aspirin; cox2]
  /\ exists out,
       convert_entities_to_standoff
         (Str.unlines (map entity_line [aspirin; cox2])) = Ok out
       /\ forall pmid,
            Dict.get pmid out
            = match rows_of pmid [aspirin; cox2] with
              | [] => None
              | rs => Some (Str.join Str.NL (map entity_standoff rs))
              end.
Proof.
  assert (H : Forall entity_row_ok [aspirin; cox2])
    by (repeat constructor; row_ok).
  split; [exact H | exact (entity_parser_preserves_rows [aspirin; cox2] H)].
Defined.

(** C5 as stated fails: a row of six fields whose surface text ends with a
    space loses that space, the line being stripped before it is split. *)
Lemma entity_text_not_verbatim :
  List.length (Str.split Str.tab (entity_line padded)) = 6
  /\ exists out,
       convert_entities_to_standoff (Str.unlines [entity_line padded])
       = Ok out
       /\ Dict.get "PMID1" out <> Some (entity_standoff padded)
       /\ Dict.get "PMID1" out
          = Some (format_entity "T1" "CHEMICAL" "0" "8" "aspirin").
Proof.
  split; [reflexivity|]. eexists. split; [vm_compute; reflexivity|].
  split; [discriminate | reflexivity].
Qed.

(** C6, as amended.  The parser strips the whole content and cuts it at the
    newlines.  For every row so obtained that holds a tab and is the last
    row with its document_id, the output keyed by that document_id is the
    remainder of the row with each tab replaced by a newline. *)
Theorem abstract_row_body (f : string) (pre post : list string)
  (row : string) :
  Str.split Str.nl (Str.strip f) = (pre ++ row :: post)%list ->
  0 < Str.count Str.tab row ->
  Forall (fun later => document_id later <> document_id row) post ->
  Dict.get (document_id row) (convert_abstracts_to_standoff f)
  = Some (tabs_to_newlines (remainder row)).
Proof.
  intros Hrows Htab Hpost.
  rewrite (AbstractFacts.get_abstract f pre row post Hrows Hpost).
  now rewrite AbstractFacts.abstract_item_body.
Qed.

Lemma abstract_row_body_witness :
  Dict.get "PMID1"
    (convert_abstracts_to_standoff (Str.unlines [abstract_1; abstract_2]))
  = Some (Str.join Str.NL ["Aspirin and COX-2"; "We study."]).
Proof.
  apply (abstract_row_body (Str.unlines [abstract_1; abstract_2])
           [] [abstract_2] abstract_1).
  - vm_compute. reflexivity.
  - vm_compute. lia.
  - repeat constructor. vm_compute. discriminate.
Defined.

(** C6 as stated fails, in two ways, on a file of three valid rows: the
    entry of PMID1 is the body of its second row, not of its first, and the
    body of the last row has lost its final space, the whole content being
    stripped before it is cut into rows. *)
Lemma abstract_row_body_not_kept :
  let out :=
    convert_abstracts_to_standoff
      (Str.unlines [abstract_1; abstract_1_again; abstract_3_padded]) in
  document_id abstract_1 = "PMID1"
  /\ Dict.get "PMID1" out <> Some (tabs_to_newlines (remainder abstract_1))
  /\ document_id abstract_3_padded = "PMID3"
  /\ Dict.get "PMID3" out
     <> Some (tabs_to_newlines (remainder abstract_3_padded))
  /\ out = [("PMID1", Str.join Str.NL ["Erratum"; "See above."]);
            ("PMID3", Str.join Str.NL ["Title"; "Body."])].
Proof.
  repeat split; try (vm_compute; discriminate).
Qed.

(** C7, as amended.  For every row of the stripped content that holds no tab
    and whose text is not the document_id of a later row, the output maps
    the whole row to the empty string. *)
Theorem abstract_line_without_tab (f : string) (pre post : list string)
  (line : string) :
  Str.split Str.nl (Str.strip f) = (pre ++ line :: post)%list ->
  Str.free_of Str.tab line ->
  Forall (fun later => document_id later <> line) post ->
  Dict.get line (convert_abstracts_to_standoff f) = Some "".
Proof.
  intros Hrows Htab Hpost.
  assert (Hid : document_id line = line).
  { unfold document_id. rewrite <- StrFacts.hd_split.
    now rewrite (StrFacts.split_free Str.tab line Htab). }
  rewrite <- Hid at 1.
  rewrite (AbstractFacts.get_abstract f pre line post Hrows).
  - now rewrite (AbstractFacts.abstract_item_no_tab line Htab).
  - now rewrite Hid.
Qed.

Lemma abstract_line_without_tab_witness :
  Dict.get "PMID9"
    (convert_abstracts_to_standoff (Str.unlines [abstract_1; "PMID9"]))
  = Some "".
Proof.
  apply (abstract_line_without_tab (Str.unlines [abstract_1; "PMID9"])
           [abstract_1] [] "PMID9").
  - vm_compute. reflexivity.
  - reflexivity.
  - constructor.
Defined.

(** C7 as stated fails, in two ways, on a file of three lines: the first
    line, which holds no tab, is not a key, its leading space being stripped
    with the content; the second, which holds no tab either, is mapped to the
    body of the third, which has the same first field. *)
Lemma abstract_line_without_tab_not_kept :
  let f := Str.unlines [" PMID1"; "PMID2"; tsv ["PMID2"; "Title"]] in
  Str.readlines f
  = [" PMID1" ++ Str.NL; "PMID2" ++ Str.NL;
     tsv ["PMID2"; "Title"] ++ Str.NL]
  /\ Str.free_of Str.tab " PMID1"
  /\ Dict.get " PMID1" (convert_abstracts_to_standoff f) = None
  /\ Str.free_of Str.tab "PMID2"
  /\ Dict.get "PMID2" (convert_abstracts_to_standoff f) = Some "Title".
Proof. repeat split. Qed.

(** C8, as amended.  A non-blank line of the entity file whose stripped text
    does not split into exactly six tab-separated fields makes the parser
    raise [ValueError], whatever the other lines are. *)
Theorem entity_field_count_checked (f line : string) :
  In line (Str.readlines f) ->
  Str.strip line <> "" ->
  List.length (Str.split Str.tab (Str.strip line)) <> 6 ->
  convert_entities_to_standoff f = Raise ValueError.
Proof.
  intros Hin _ Hn. now apply ParserFacts.entities_bad_line with line.
Qed.

Lemma entity_field_count_checked_witness :
  convert_entities_to_standoff
    (Str.unlines [entity_line aspirin; five_fields]) = Raise ValueError.
Proof.
  apply (entity_field_count_checked
           (Str.unlines [entity_line aspirin; five_fields])
           (five_fields ++ Str.NL)).
  - vm_compute. right. left. reflexivity.
  - vm_compute. discriminate.
  - vm_compute. discriminate.
Defined.

(** C8 as stated fails: a line of seven tab-separated fields, the last one
    empty, is accepted, the trailing tab being stripped before the split. *)
Lemma entity_seven_fields_accepted :
  List.length (Str.split Str.tab seven_fields) = 7
  /\ Str.strip seven_fields <> ""
  /\ convert_entities_to_standoff (Str.unlines [seven_fields])
     = Ok [("PMID1", entity_standoff aspirin)].
Proof.
  split; [reflexivity|]. split; [vm_compute; discriminate|].
  vm_compute. reflexivity.
Qed.

(** ** The directory initializer *)

Section MakeDir.

Variable World : Type.
Variable os_makedirs : string -> World -> World * option errno.

(** What [os.makedirs] promises, in terms of the paths that exist: on an
    existing path it raises [FileExistsError] and changes nothing; when it
    returns, or raises [FileExistsError], the path exists. *)
Variable path_exists : string -> World -> Prop.
Hypothesis makedirs_on_existing :
  forall d w, path_exists d w -> os_makedirs d w = (w, Some EEXIST).
Hypothesis makedirs_creates :
  forall d w w', os_makedirs d w = (w', None) -> path_exists d w'.
Hypothesis makedirs_eexist :
  forall d w w', os_makedirs d w = (w', Some EEXIST) -> path_exists d w'.

Lemma make_dir_on_existing d w :
  path_exists d w -> make_dir os_makedirs d w = (w, Ok tt).
Proof.
  intros H. unfold make_dir. now rewrite (makedirs_on_existing d w H).
Qed.

Lemma make_dir_establishes d w w' :
  make_dir os_makedirs d w = (w', Ok tt) -> path_exists d w'.
Proof.
  unfold make_dir. destruct (os_makedirs d w) as [w1 [err|]] eqn:E.
  - destruct err; simpl; try discriminate.
    intros [= <-]. now apply makedirs_eexist with w.
  - intros [= <-]. now apply makedirs_creates with w.
Qed.

(** C9.  [make_dir] succeeds on a directory that already exists, so a
    call that succeeded can be repeated and succeeds again, leaving the
    file system as it is; and every failure of the creation other than
    "already exists" is raised to the caller with its [errno]. *)
Theorem make_dir_idempotent (d : string) (w : World) :
  (path_exists d w -> make_dir os_makedirs d w = (w, Ok tt))
  /\ (forall w1, make_dir os_makedirs d w = (w1, Ok tt) ->
                 make_dir os_makedirs d w1 = (w1, Ok tt))
  /\ (forall w1 err, os_makedirs d w = (w1, Some err) -> err <> EEXIST ->
                     make_dir os_makedirs d w = (w1, Raise (OSError err))).
Proof.
  split; [apply make_dir_on_existing|]. split.
  - intros w1 H. apply make_dir_on_existing.
    now apply make_dir_establishes with w.
  - intros w1 err E Hne. unfold make_dir. rewrite E.
    destruct err; simpl; congruence.
Qed.

End MakeDir.

Lemma make_dir_idempotent_witness :
  let w0 := ToyWorld [] false in
  let w1 := ToyWorld ["out"] false in
  let ro := ToyWorld [] true in
  make_dir toy_makedirs "out" w0 = (w1, Ok tt)
  /\ make_dir toy_makedirs "out" w1 = (w1, Ok tt)
  /\ make_dir toy_makedirs "out" ro = (ro, Raise (OSError EROFS)).
Proof.
  intros w0 w1 ro.
  pose proof (make_dir_idempotent toy_world toy_makedirs
                toy_path_exists ToyWorldFacts.toy_on_existing
                ToyWorldFacts.toy_creates ToyWorldFacts.toy_eexist) as H.
  split; [reflexivity|]. split.
  - apply (proj1 (proj2 (H "out" w0)) w1). reflexivity.
  - apply (proj2 (proj2 (H "out" ro)) ro EROFS); [reflexivity | discriminate].
Defined.

(** C10.  A row that ends in a tab, so that its last field is empty, is
    rejected: with six fields by the entity parser and with four fields by
    the relation parser, whether or not the line has its terminator. *)
Theorem row_ending_in_tab_rejected (f p : string) :
  In ((p ++ Str.TAB) ++ Str.NL) (Str.readlines f)
  \/ In (p ++ Str.TAB) (Str.readlines f) ->
  last (Str.split Str.tab (p ++ Str.TAB)) "?" = ""
  /\ (List.length (Str.split Str.tab (p ++ Str.TAB)) = 6 ->
      convert_entities_to_standoff f = Raise ValueError)
  /\ (List.length (Str.split Str.tab (p ++ Str.TAB)) = 4 ->
      convert_relations_to_standoff f = Raise ValueError).
Proof.
  intros Hin.
  assert (Hlt : forall line,
             line = (p ++ Str.TAB) ++ Str.NL \/ line = p ++ Str.TAB ->
             List.length (Str.split Str.tab (Str.strip line))
             < List.length (Str.split Str.tab (p ++ Str.TAB))).
  { intros line [-> | ->].
    - rewrite StrFacts.strip_line. apply ParserFacts.fields_after_trailing_tab.
    - apply ParserFacts.fields_after_trailing_tab. }
  split; [apply StrFacts.split_snoc_sep_last|].
  split; intros Hlen.
  - destruct Hin as [Hin | Hin];
      (eapply ParserFacts.entities_bad_line; [exact Hin|]);
      [specialize (Hlt _ (or_introl eq_refl))
      |specialize (Hlt _ (or_intror eq_refl))]; lia.
  - destruct Hin as [Hin | Hin];
      (eapply ParserFacts.relations_bad_line; [exact Hin|]);
      [specialize (Hlt _ (or_introl eq_refl))
      |specialize (Hlt _ (or_intror eq_refl))]; lia.
Qed.

Lemma row_ending_in_tab_rejected_witness :
  convert_entities_to_standoff
    (Str.unlines [entity_line aspirin; entity_no_text])
  = Raise ValueError
  /\ convert_relations_to_standoff (Str.unlines [relation_no_arg])
     = Raise ValueError.
Proof.
  split.
  - refine (proj1 (proj2 (row_ending_in_tab_rejected
                            (Str.unlines
                               [entity_line aspirin; entity_no_text])
                            (tsv ["PMID1"; "T1"; "CHEMICAL"; "0"; "5"])
                            (or_introl _))) _).
    + vm_compute. right. left. reflexivity.
    + reflexivity.
  - refine (proj2 (proj2 (row_ending_in_tab_rejected
                            (Str.unlines [relation_no_arg])
                            (tsv ["PMID1"; "CPR:3"; "Arg1:T1"])
                            (or_introl _))) _).
    + vm_compute. left. reflexivity.
    + reflexivity.
Defined.

(** * Further properties of the code *)

(** ** Loops that succeed, and what they keep *)

Lemma for_each_invariant {S X} (I : S -> Prop) (body : S -> X -> result S)
  (xs : list X) :
  (forall s x s', I s -> body s x = Ok s' -> I s') ->
  forall s s', I s -> for_each body xs s = Ok s' -> I s'.
Proof.
  intros Hstep. induction xs as [|x xs IH]; intros s s' Hs; simpl.
  - now intros [= <-].
  - destruct (body s x) as [s1|e] eqn:E; simpl; [|discriminate].
    apply IH. now apply Hstep with s x.
Qed.

Lemma for_each_accepts {S X} (P : X -> Prop) (body : S -> X -> result S)
  (xs : list X) :
  (forall s x, P x -> exists s', body s x = Ok s') ->
  Forall P xs -> forall s, exists s', for_each body xs s = Ok s'.
Proof.
  intros Hbody. induction 1 as [|x xs Hx _ IH]; intros s; simpl.
  - now exists s.
  - destruct (Hbody s x Hx) as [s1 E]. rewrite E. simpl. apply IH.
Qed.

Module LoopFacts.
Import Str StrFacts Dict DictFacts AppendFacts.

Lemma entities_body_accepts acc line :
  field_count line = 6 -> exists acc', entities_body acc line = Ok acc'.
Proof.
  unfold field_count, entities_body. intros Hn.
  destruct (truthy line); [|now eexists].
  ParserFacts.destruct_fields (split tab (strip line)); simpl in Hn;
    try lia. now eexists.
Qed.

Lemma relations_body_accepts st line :
  field_count line = 4 -> exists st', relations_body st line = Ok st'.
Proof.
  unfold field_count, relations_body. intros Hn. destruct st as [R d].
  destruct (truthy line); [|now eexists].
  ParserFacts.destruct_fields (split tab (strip line)); simpl in Hn;
    try lia. now eexists.
Qed.

Lemma entities_body_wf acc line acc' :
  wf acc -> entities_body acc line = Ok acc' -> wf acc'.
Proof.
  unfold entities_body. intros Hwf. destruct (truthy line);
    [|now intros [= <-]].
  ParserFacts.destruct_fields (split tab (strip line)); try discriminate.
  intros [= <-]. now apply wf_append.
Qed.

Lemma relations_body_wf st line st' :
  wf (snd st) -> relations_body st line = Ok st' -> wf (snd st').
Proof.
  unfold relations_body. destruct st as [R d]. simpl. intros Hwf.
  destruct (truthy line); [|now intros [= <-]].
  ParserFacts.destruct_fields (split tab (strip line)); try discriminate.
  intros [= <-]. simpl. now apply wf_append.
Qed.

(** The final comprehension keeps the keys, hence their distinctness. *)
Lemma wf_join_annotations d : wf d -> wf (join_annotations d).
Proof.
  intros Hd. unfold join_annotations.
  rewrite (comprehension_map_values (join NL) d Hd).
  unfold wf, keys in *. now rewrite map_map.
Qed.

(** The documents of a parsed entity file are pairwise distinct. *)
Lemma entities_wf f out : convert_entities_to_standoff f = Ok out -> wf out.
Proof.
  unfold convert_entities_to_standoff.
  destruct (for_each entities_body (readlines f) empty) as [d|e] eqn:E;
    simpl; [|discriminate].
  intros [= <-]. apply wf_join_annotations.
  apply (for_each_invariant (fun d => wf d) entities_body (readlines f)
           entities_body_wf empty d); [constructor | exact E].
Qed.

Lemma relations_loop_wf f st :
  for_each relations_body (readlines f) (1, empty) = Ok st -> wf (snd st).
Proof.
  apply (for_each_invariant (fun st => wf (snd st)) relations_body
           (readlines f) relations_body_wf (1, empty) st).
  constructor.
Qed.

(** The loop of the relation parser keeps every document starting at 1:
    a new document starts there, a known one only grows at its end. *)
Lemma relations_body_R1 st line st' :
  numbered_from_R1 (snd st) -> relations_body st line = Ok st' ->
  numbered_from_R1 (snd st').
Proof.
  unfold relations_body. destruct st as [R d]. simpl. intros Hinv.
  destruct (truthy line); [|now intros [= <-]].
  ParserFacts.destruct_fields (split tab (strip line)); try discriminate.
  intros [= <-]. simpl. intros pmid anns.
  destruct (string_dec pmid s) as [-> | Hne].
  - rewrite get_append_eq. intros [= <-]. unfold mem.
    destruct (get s d) as [old|] eqn:E; simpl.
    + destruct (Hinv s old E) as (l & a & b & rest & ->).
      now exists l, a, b, (rest ++ [format_relation R s0 s1 s2])%list.
    + now exists s0, s1, s2, [].
  - rewrite get_append_ne by exact Hne. apply Hinv.
Qed.

Lemma relations_loop_R1 f st :
  for_each relations_body (readlines f) (1, empty) = Ok st ->
  numbered_from_R1 (snd st).
Proof.
  apply (for_each_invariant (fun st => numbered_from_R1 (snd st))
           relations_body (readlines f) relations_body_R1 (1, empty) st).
  intros pmid anns. discriminate.
Qed.

Lemma join_cons_prefix (x : string) (rest : list string) :
  exists tail, join NL (x :: rest) = x ++ tail.
Proof.
  destruct rest as [|y ys].
  - exists "". simpl. now rewrite append_nil_r.
  - now exists (NL ++ join NL (y :: ys)).
Qed.

End LoopFacts.

(** ** The parsers *)

Lemma relations_numbered_when_grouped_witness :
  exists out,
    convert_relations_to_standoff (grouped_file sample_groups) = Ok out
    /\ forall pmid rows,
         In (pmid, rows) sample_groups -> rows <> [] ->
         Dict.get pmid out = Some (Str.join Str.NL (numbered 1 rows)).
Proof.
  apply (RelationFacts.relations_numbered_when_grouped sample_groups).
  - repeat constructor; simpl; intuition discriminate.
  - repeat constructor; vm_compute; reflexivity.
Defined.

(** X2.  The entity parser returns a mapping exactly when every line of the
    file, once stripped, splits into six tab-separated fields; otherwise it
    raises. *)
Theorem entity_parser_accepts_iff (f : string) :
  (exists out, convert_entities_to_standoff f = Ok out)
  <-> Forall (fun line => field_count line = 6) (Str.readlines f).
Proof.
  split.
  - intros [out Hout].
    destruct (Forall_Exists_dec (fun line => field_count line = 6)
                (fun line => Nat.eq_dec (field_count line) 6)
                (Str.readlines f)) as [Hall | Hbad]; [exact Hall|].
    apply Exists_exists in Hbad as (line & Hin & Hn).
    rewrite (ParserFacts.entities_bad_line f line Hin Hn) in Hout.
    discriminate.
  - intros Hall. unfold convert_entities_to_standoff.
    destruct (for_each_accepts (fun line => field_count line = 6)
                entities_body (Str.readlines f)
                (fun acc line => LoopFacts.entities_body_accepts acc line)
                Hall Dict.empty) as [d E].
    rewrite E. simpl. now eexists.
Qed.

(** X3.  The relation parser returns a mapping exactly when every line of
    the file, once stripped, splits into four tab-separated fields;
    otherwise it raises. *)
Theorem relation_parser_accepts_iff (f : string) :
  (exists out, convert_relations_to_standoff f = Ok out)
  <-> Forall (fun line => field_count line = 4) (Str.readlines f).
Proof.
  split.
  - intros [out Hout].
    destruct (Forall_Exists_dec (fun line => field_count line = 4)
                (fun line => Nat.eq_dec (field_count line) 4)
                (Str.readlines f)) as [Hall | Hbad]; [exact Hall|].
    apply Exists_exists in Hbad as (line & Hin & Hn).
    rewrite (ParserFacts.relations_bad_line f line Hin Hn) in Hout.
    discriminate.
  - intros Hall. unfold convert_relations_to_standoff.
    destruct (for_each_accepts (fun line => field_count line = 4)
                relations_body (Str.readlines f)
                (fun st line => LoopFacts.relations_body_accepts st line)
                Hall (1, Dict.empty)) as [st E].
    rewrite E. simpl. now eexists.
Qed.

(** X4.  Whatever the order of the rows, the block of every document in the
    output of the relation parser begins with relation number 1. *)
Theorem first_relation_is_R1 (f : string) (out : Dict.t string)
  (pmid body : string) :
  convert_relations_to_standoff f = Ok out ->
  Dict.get pmid out = Some body ->
  exists rest, body = "R1" ++ Str.TAB ++ rest.
Proof.
  unfold convert_relations_to_standoff.
  destruct (for_each relations_body (Str.readlines f) (1, Dict.empty))
    as [st|e] eqn:E; simpl; [|discriminate].
  intros [= <-].
  rewrite AppendFacts.get_join_annotations
    by exact (LoopFacts.relations_loop_wf f st E).
  destruct (Dict.get pmid (snd st)) as [anns|] eqn:Hget; simpl;
    [|discriminate].
  intros [= <-].
  destruct (LoopFacts.relations_loop_R1 f st E pmid anns Hget)
    as (label & a & b & rest & ->).
  destruct (LoopFacts.join_cons_prefix (format_relation 1 label a b) rest)
    as [tail ->].
  exists ((label ++ " " ++ a ++ " " ++ b) ++ tail).
  unfold format_relation. simpl.
  now rewrite !StrFacts.append_assoc.
Qed.

Lemma first_relation_is_R1_witness :
  exists rest,
    Str.join Str.NL
      [format_relation 1 "CPR:1" "Arg1:T1" "Arg2:T2";
       format_relation 2 "CPR:2" "Arg1:T3" "Arg2:T4";
       format_relation 2 "CPR:4" "Arg1:T7" "Arg2:T8"]
    = "R1" ++ Str.TAB ++ rest.
Proof.
  apply (first_relation_is_R1 interleaved_relations
           [("PMID1",
             Str.join Str.NL
               [format_relation 1 "CPR:1" "Arg1:T1" "Arg2:T2";
                format_relation 2 "CPR:2" "Arg1:T3" "Arg2:T4";
                format_relation 2 "CPR:4" "Arg1:T7" "Arg2:T8"]);
            ("PMID2", format_relation 1 "CPR:3" "Arg1:T5" "Arg2:T6")]
           "PMID1").
  - vm_compute. reflexivity.
  - reflexivity.
Defined.

(** ** The abstract parser on whole files *)

Module AbstractFileFacts.
Import Str StrFacts Dict DictFacts.

Lemma rstrip_all_whitespace s : all_whitespace s = true -> rstrip s = "".
Proof.
  induction s as [|c s IH]; simpl; [reflexivity|].
  intros H. apply andb_prop in H as [Hc Hs]. now rewrite (IH Hs), Hc.
Qed.

Lemma strip_all_whitespace s : all_whitespace s = true -> strip s = "".
Proof. intros H. unfold strip. now rewrite (rstrip_all_whitespace s H). Qed.

Lemma set_not_nil {V} k (v : V) d : set k v d <> [].
Proof.
  destruct d as [|[k' v'] d]; simpl; [discriminate|].
  destruct (String.eqb k k'); discriminate.
Qed.

Lemma fold_set_not_nil {V} (kvs : list (string * V)) d :
  d <> [] -> fold_left (fun d kv => set (fst kv) (snd kv) d) kvs d <> [].
Proof.
  revert d. induction kvs as [|kv kvs IH]; intros d Hd; simpl;
    [exact Hd|].
  apply IH. apply set_not_nil.
Qed.

(** Every item of a dictionary built by assignments was assigned. *)
Lemma In_set {V} k (v : V) d kv :
  In kv (set k v d) -> kv = (k, v) \/ In kv d.
Proof.
  induction d as [|[k' v'] d IH]; simpl.
  - intros [<- | []]. now left.
  - destruct (String.eqb k k'); simpl.
    + intros [<- | H]; [now left | right; now right].
    + intros [<- | H]; [right; now left|].
      destruct (IH H) as [-> | H']; [now left | right; now right].
Qed.

Lemma In_comprehension {V} (kvs : list (string * V)) kv :
  In kv (comprehension kvs) -> In kv kvs.
Proof.
  unfold comprehension.
  assert (H : forall d, In kv (fold_left
                                 (fun d kv => set (fst kv) (snd kv) d) kvs d)
                        -> In kv d \/ In kv kvs).
  { induction kvs as [|[k v] kvs IH]; intros d; simpl; [now left|].
    intros Hin. destruct (IH _ Hin) as [Hd | Hk]; [|right; now right].
    destruct (In_set _ _ _ _ Hd) as [-> | Hd']; [right; now left | now left]. }
  intros Hin. destruct (H empty Hin) as [[] | Hk]. exact Hk.
Qed.

Lemma split_free_of c s : Forall (free_of c) (split c s).
Proof.
  induction s as [|a s IH]; simpl; [repeat constructor|].
  destruct (Ascii.eqb a c) eqn:E; [constructor; [reflexivity | exact IH]|].
  destruct (split c s) as [|x xs]; [repeat constructor; unfold free_of; simpl;
                                     now rewrite E|].
  inversion IH as [|? ? Hx Hxs]; subst. constructor; [|exact Hxs].
  unfold free_of in *. simpl. now rewrite E.
Qed.

Lemma count_before_le c c' s : count c (before c' s) <= count c s.
Proof.
  induction s as [|a s IH]; simpl; [lia|].
  destruct (Ascii.eqb a c'); simpl; lia.
Qed.

Lemma before_free_of c s : free_of c (before c s).
Proof.
  unfold free_of. induction s as [|a s IH]; simpl; [reflexivity|].
  destruct (Ascii.eqb a c) eqn:E; simpl; [reflexivity | now rewrite E].
Qed.

Lemma after_free_of c s : free_of c s -> after c s = "".
Proof.
  induction s as [|a s IH]; intros H; simpl; [reflexivity|].
  apply free_of_cons in H as [Ha Hs]. rewrite Ha. now apply IH.
Qed.

(** The item the parser builds is the entry the spec words, with or without
    a tab in the row. *)
Lemma abstract_item_entry row : abstract_item row = abstract_entry row.
Proof.
  unfold abstract_entry.
  rewrite <- (AbstractFacts.abstract_item_key row).
  destruct (Nat.eq_dec (count tab row) 0) as [H0 | Hpos].
  - rewrite (AbstractFacts.abstract_item_no_tab row H0). simpl.
    unfold remainder. now rewrite (after_free_of tab row H0).
  - rewrite <- (AbstractFacts.abstract_item_body row) by lia.
    now destruct (abstract_item row).
Qed.

End AbstractFileFacts.

(** X5.  The abstract parser never returns an empty mapping, and on a file
    that holds nothing but whitespace (the empty file too) it returns the
    single entry that maps the empty document_id to the empty text. *)
Theorem abstract_mapping_never_empty (f : string) :
  convert_abstracts_to_standoff f <> []
  /\ (all_whitespace f = true ->
      convert_abstracts_to_standoff f = [("", "")]).
Proof.
  split.
  - unfold convert_abstracts_to_standoff, Dict.comprehension.
    pose proof (StrFacts.split_not_nil Str.nl (Str.strip f)) as Hne.
    destruct (Str.split Str.nl (Str.strip f)) as [|row rows]; [congruence|].
    simpl. apply AbstractFileFacts.fold_set_not_nil. discriminate.
  - intros H. unfold convert_abstracts_to_standoff.
    now rewrite (AbstractFileFacts.strip_all_whitespace f H).
Qed.

Lemma abstract_mapping_never_empty_witness :
  convert_abstracts_to_standoff (Str.unlines [" "; ""]) = [("", "")].
Proof.
  apply (proj2 (abstract_mapping_never_empty (Str.unlines [" "; ""]))).
  reflexivity.
Defined.

(** X6.  No document_id of the abstract mapping holds a tab or a newline,
    and no body holds a tab: every tab of the file is consumed as a
    separator. *)
Theorem abstract_mapping_free_of_tabs (f : string) :
  Forall (fun kv => Str.free_of Str.tab (fst kv)
                    /\ Str.free_of Str.nl (fst kv)
                    /\ Str.free_of Str.tab (snd kv))
         (convert_abstracts_to_standoff f).
Proof.
  apply Forall_forall. intros kv Hin.
  apply AbstractFileFacts.In_comprehension in Hin.
  apply in_map_iff in Hin as (row & <- & Hrow). simpl.
  pose proof (AbstractFileFacts.split_free_of Str.nl (Str.strip f)) as Hnl.
  rewrite Forall_forall in Hnl. specialize (Hnl row Hrow).
  rewrite StrFacts.hd_split. repeat split.
  - apply AbstractFileFacts.before_free_of.
  - unfold Str.free_of in *.
    pose proof (AbstractFileFacts.count_before_le Str.nl Str.tab row). lia.
  - apply EntityFacts.free_of_join; [reflexivity|].
    pose proof (AbstractFileFacts.split_free_of Str.tab row) as Htab.
    destruct (Str.split Str.tab row); [constructor|].
    now inversion Htab.
Qed.

(** X7.  On a file of rows with pairwise distinct document_ids, whose first
    row does not start and whose last row does not end with whitespace, the
    abstract parser returns one entry per row, in the order of the file:
    the document_id and the remainder with its tabs turned into newlines. *)
Theorem abstract_file_distinct_ids (rows : list string) :
  rows <> [] ->
  Forall (Str.free_of Str.nl) rows ->
  Str.strip (Str.join Str.NL rows) = Str.join Str.NL rows ->
  NoDup (map document_id rows) ->
  convert_abstracts_to_standoff (Str.unlines rows) = map abstract_entry rows.
Proof.
  intros Hne Hnl Hstrip Hnd. unfold convert_abstracts_to_standoff.
  rewrite (AbstractFacts.rows_of_file rows Hne Hnl Hstrip).
  change (Dict.comprehension (map abstract_item rows)
          = map abstract_entry rows).
  rewrite (map_ext abstract_item abstract_entry
             AbstractFileFacts.abstract_item_entry).
  unfold Dict.comprehension.
  rewrite DictFacts.fold_set_fresh; [reflexivity|].
  unfold Dict.wf, Dict.keys, Dict.empty. simpl. now rewrite map_map.
Qed.

Lemma abstract_file_distinct_ids_witness :
  convert_abstracts_to_standoff (Str.unlines abstract_rows)
  = [("PMID1", Str.join Str.NL ["Aspirin and COX-2"; "We study."]);
     ("PMID9", "");
     ("PMID2", Str.join Str.NL ["Another title"; "Another body."])].
Proof.
  apply (abstract_file_distinct_ids abstract_rows).
  - discriminate.
  - repeat constructor.
  - reflexivity.
  - repeat constructor; simpl; intuition discriminate.
Defined.

(** ** The merge as a whole *)

Module MergeSpec.
Import Dict DictFacts MergeFacts.

(** Two dictionaries with the same keys in the same order and the same
    value under every key are the same dictionary. *)
Lemma dict_ext {V} (d d' : t V) :
  wf d -> keys d = keys d' -> (forall k, get k d = get k d') -> d = d'.
Proof.
  revert d'. induction d as [|[k v] d IH]; intros [|[k' v'] d'] Hwf Hk Hg;
    try discriminate; [reflexivity|].
  simpl in Hk. injection Hk as <- Hk.
  inversion Hwf as [|? ? Hfresh Hwf']; subst.
  pose proof (Hg k) as Hkk. simpl in Hkk. rewrite String.eqb_refl in Hkk.
  injection Hkk as <-. f_equal. apply IH; [exact Hwf' | exact Hk|].
  intros k0. destruct (String.eqb_spec k0 k) as [-> | Hne].
  - assert (H1 : get k d = None) by now apply get_None_keys.
    assert (H2 : get k d' = None)
      by (apply get_None_keys; unfold keys in *; now rewrite <- Hk).
    now rewrite H1, H2.
  - specialize (Hg k0). simpl in Hg.
    apply String.eqb_neq in Hne. now rewrite Hne in Hg.
Qed.

Lemma get_map_entries {V W} (g : string * V -> W) k (d : t V) :
  get k (map (fun kv => (fst kv, g kv)) d)
  = match get k d with
    | Some v => Some (g (k, v))
    | None => None
    end.
Proof.
  induction d as [|[k' v'] d IH]; simpl; [reflexivity|].
  destruct (String.eqb_spec k k') as [-> | Hne]; [reflexivity | exact IH].
Qed.

End MergeSpec.

(** X8.  The merge rewrites the entity mapping entry by entry, in place:
    every document keeps its position, a document that has relations gets
    entity block, newline, relation block, and every other document keeps
    its entity block.  No document is added or removed. *)
Theorem merge_annotations_entrywise (ents rels : Dict.t string) :
  Dict.wf ents ->
  merge_annotations ents rels = map (merged_entry rels) ents.
Proof.
  intros Hwf. apply MergeSpec.dict_ext.
  - unfold Dict.wf. now rewrite MergeFacts.keys_merge.
  - rewrite MergeFacts.keys_merge. unfold Dict.keys, merged_entry.
    now rewrite map_map.
  - intros k. unfold merged_entry.
    rewrite (MergeSpec.get_map_entries
               (fun kv => match Dict.get (fst kv) rels with
                          | Some r => snd kv ++ Str.NL ++ r
                          | None => snd kv
                          end) k ents).
    simpl. destruct (Dict.get k ents) as [e|] eqn:He.
    + destruct (Dict.get k rels) as [r|] eqn:Hr.
      * now apply MergeFacts.get_merge_both.
      * now rewrite MergeFacts.get_merge_entity_only.
    + apply DictFacts.get_None_keys. rewrite MergeFacts.keys_merge.
      now apply DictFacts.get_None_keys.
Qed.

Lemma merge_annotations_entrywise_witness :
  merge_annotations sample_entities sample_relations
  = [("PMID1",
      Str.join Str.NL
        [entity_standoff aspirin; entity_standoff cox2;
         format_relation 1 "CPR:4" "Arg1:T1" "Arg2:T2"]);
     ("PMID3", entity_standoff cox2)].
Proof.
  apply (merge_annotations_entrywise sample_entities sample_relations).
  repeat constructor; simpl; intuition discriminate.
Defined.

(** ** The pipeline *)

Module MainFacts.

Section Files.

Variable World : Type.
Variable os_write : string -> string -> World -> World * option errno.

Lemma main_files_cons_unmatched output name content rest st w :
  is_unmatched_file name = true ->
  main_files os_write output ((name, content) :: rest) st w
  = main_files os_write output rest st w.
Proof.
  unfold is_unmatched_file. intros H.
  apply andb_prop in H as [H Hg]. apply andb_prop in H as [Ha He].
  apply negb_true_iff in Ha, He, Hg. cbn [main_files].
  now rewrite Ha, He, Hg.
Qed.

Lemma main_files_entity_head output name content rest st w d :
  is_entity_file name = true ->
  convert_entities_to_standoff content = Ok d ->
  main_files os_write output ((name, content) :: rest) st w
  = main_files os_write output rest
      (Locals (Some d) (converted_relations st)) w.
Proof.
  unfold is_entity_file. intros H Hd.
  apply andb_prop in H as [Ha He]. apply negb_true_iff in Ha.
  cbn [main_files]. now rewrite Ha, He, Hd.
Qed.

Lemma main_files_relation_head output name content rest st w d :
  is_relation_file name = true ->
  convert_relations_to_standoff content = Ok d ->
  main_files os_write output ((name, content) :: rest) st w
  = main_files os_write output rest
      (Locals (converted_entities st) (Some d)) w.
Proof.
  unfold is_relation_file. intros H Hd.
  apply andb_prop in H as [H Hg]. apply andb_prop in H as [Ha He].
  apply negb_true_iff in Ha, He. cbn [main_files].
  now rewrite Ha, He, Hg, Hd.
Qed.

(** The loop over a list of files is the loop over its first part, then,
    unless that part raised, the loop over the rest. *)
Lemma main_files_app output pre rest st w :
  main_files os_write output (pre ++ rest) st w
  = match main_files os_write output pre st w with
    | (w1, written1, Ok st1) =>
        let '(w2, written2, r) := main_files os_write output rest st1 w1 in
        (w2, (written1 ++ written2)%list, r)
    | (w1, written1, Raise e) => (w1, written1, Raise e)
    end.
Proof.
  revert st w. induction pre as [|[n c] pre IH]; intros st w.
  - cbn [app main_files].
    now destruct (main_files os_write output rest st w) as [[w2 wr2] r].
  - cbn [app main_files].
    destruct (Str.search "abstracts" n).
    { destruct (write_to_disk os_write output
                  (convert_abstracts_to_standoff c) "txt" w)
        as [[w1 wr1] [u|e]]; [|reflexivity].
      rewrite IH.
      destruct (main_files os_write output pre st w1)
        as [[w2 wr2] [st2|e2]]; [|reflexivity].
      destruct (main_files os_write output rest st2 w2) as [[w3 wr3] r].
      now rewrite app_assoc. }
    destruct (Str.search "entities" n).
    { destruct (convert_entities_to_standoff c); [apply IH | reflexivity]. }
    destruct (Str.search "gold_standard" n); [|apply IH].
    destruct (convert_relations_to_standoff c); [apply IH | reflexivity].
Qed.

Lemma main_files_skip_unmatched output pre name content post st w :
  is_unmatched_file name = true ->
  main_files os_write output (pre ++ (name, content) :: post) st w
  = main_files os_write output (pre ++ post) st w.
Proof.
  intros H. rewrite !main_files_app.
  destruct (main_files os_write output pre st w)
    as [[w1 wr1] [st1|e1]]; [|reflexivity].
  now rewrite (main_files_cons_unmatched output name content post st1 w1 H).
Qed.

(** Files that are no entity files leave [converted_entities] as it is. *)
Lemma main_files_keeps_entities output files st w w' written st' :
  Forall (fun file => is_entity_file (fst file) = false) files ->
  main_files os_write output files st w = (w', written, Ok st') ->
  converted_entities st' = converted_entities st.
Proof.
  intros Hno. revert st w w' written.
  induction Hno as [|[n c] files Hn _ IH]; intros st w w' written;
    cbn [main_files].
  - now intros [= _ _ <-].
  - unfold is_entity_file in Hn. cbn [fst] in Hn.
    destruct (Str.search "abstracts" n).
    { destruct (write_to_disk os_write output
                  (convert_abstracts_to_standoff c) "txt" w)
        as [[w1 wr1] [u|e]]; [|discriminate].
      destruct (main_files os_write output files st w1)
        as [[w2 wr2] r] eqn:E.
      intros [= _ _ ->]. now apply (IH _ _ _ _ E). }
    cbn in Hn. rewrite Hn.
    destruct (Str.search "gold_standard" n); [|apply IH].
    destruct (convert_relations_to_standoff c); [|discriminate].
    intros H. now rewrite (IH _ _ _ _ H).
Qed.

(** Files that are no relation files leave [converted_relations] as it
    is. *)
Lemma main_files_keeps_relations output files st w w' written st' :
  Forall (fun file => is_relation_file (fst file) = false) files ->
  main_files os_write output files st w = (w', written, Ok st') ->
  converted_relations st' = converted_relations st.
Proof.
  intros Hno. revert st w w' written.
  induction Hno as [|[n c] files Hn _ IH]; intros st w w' written;
    cbn [main_files].
  - now intros [= _ _ <-].
  - unfold is_relation_file in Hn. cbn [fst] in Hn.
    destruct (Str.search "abstracts" n).
    { destruct (write_to_disk os_write output
                  (convert_abstracts_to_standoff c) "txt" w)
        as [[w1 wr1] [u|e]]; [|discriminate].
      destruct (main_files os_write output files st w1)
        as [[w2 wr2] r] eqn:E.
      intros [= _ _ ->]. now apply (IH _ _ _ _ E). }
    destruct (Str.search "entities" n).
    { destruct (convert_entities_to_standoff c); [|discriminate].
      intros H. now rewrite (IH _ _ _ _ H). }
    cbn in Hn. rewrite Hn. apply IH.
Qed.

(** After the loop, [converted_entities] is the mapping of the last entity
    file, wherever it stands. *)
Lemma main_files_last_entity output pre name content post st w w' written
  st' ents :
  is_entity_file name = true ->
  Forall (fun file => is_entity_file (fst file) = false) post ->
  convert_entities_to_standoff content = Ok ents ->
  main_files os_write output (pre ++ (name, content) :: post) st w
  = (w', written, Ok st') ->
  converted_entities st' = Some ents.
Proof.
  intros Hn Hpost Hents. rewrite main_files_app.
  destruct (main_files os_write output pre st w)
    as [[w1 wr1] [st1|e1]]; [|discriminate].
  rewrite (main_files_entity_head output name content post st1 w1 ents
             Hn Hents).
  destruct (main_files os_write output post _ w1) as [[w2 wr2] r] eqn:E.
  intros [= _ _ ->].
  now rewrite (main_files_keeps_entities _ _ _ _ _ _ _ Hpost E).
Qed.

(** And [converted_relations] the mapping of the last relation file. *)
Lemma main_files_last_relation output pre name content post st w w' written
  st' rels :
  is_relation_file name = true ->
  Forall (fun file => is_relation_file (fst file) = false) post ->
  convert_relations_to_standoff content = Ok rels ->
  main_files os_write output (pre ++ (name, content) :: post) st w
  = (w', written, Ok st') ->
  converted_relations st' = Some rels.
Proof.
  intros Hn Hpost Hrels. rewrite main_files_app.
  destruct (main_files os_write output pre st w)
    as [[w1 wr1] [st1|e1]]; [|discriminate].
  rewrite (main_files_relation_head output name content post st1 w1 rels
             Hn Hrels).
  destruct (main_files os_write output post _ w1) as [[w2 wr2] r] eqn:E.
  intros [= _ _ ->].
  now rewrite (main_files_keeps_relations _ _ _ _ _ _ _ Hpost E).
Qed.

(** The loop over the files writes entries of the mappings of the
    abstracts files and nothing else. *)
Lemma main_files_writes_abstracts output files st w :
  Forall (abstract_write output files)
         (snd (fst (main_files os_write output files st w))).
Proof.
  revert st w. induction files as [|[n c] files IH]; intros st w;
    cbn [main_files]; [constructor|].
  assert (Hweak : forall st' w',
             Forall (abstract_write output ((n, c) :: files))
                    (snd (fst (main_files os_write output files st' w')))).
  { intros st' w'. specialize (IH st' w'). revert IH. apply Forall_impl.
    intros ev (file & Hin & Hs & Hev). exists file.
    split; [now right | now split]. }
  destruct (Str.search "abstracts" n) eqn:Ha.
  { assert (Hhere : forall w1 wr r,
               write_to_disk os_write output
                 (convert_abstracts_to_standoff c) "txt" w = (w1, wr, r) ->
               Forall (abstract_write output ((n, c) :: files)) wr).
    { intros w1 wr r Hrun. apply Forall_forall. intros ev Hev.
      exists (n, c). split; [now left|]. split; [exact Ha|].
      exact (WriteFacts.write_to_disk_In World os_write _ _ _ _ _ _ _ _
               Hrun Hev). }
    destruct (write_to_disk os_write output
                (convert_abstracts_to_standoff c) "txt" w)
      as [[w1 wr1] [u|e]] eqn:E.
    - specialize (Hweak st w1).
      destruct (main_files os_write output files st w1) as [[w2 wr2] r].
      cbn [fst snd] in *. apply Forall_app.
      split; [now apply (Hhere w1 wr1 (Ok u)) | exact Hweak].
    - cbn [fst snd]. now apply (Hhere w1 wr1 (Raise e)). }
  destruct (Str.search "entities" n).
  { destruct (convert_entities_to_standoff c); [apply Hweak | constructor]. }
  destruct (Str.search "gold_standard" n); [|apply Hweak].
  destruct (convert_relations_to_standoff c); [apply Hweak | constructor].
Qed.

End Files.

End MainFacts.

(** X10.  When the output directory cannot be created, for a reason other
    than its existence, [main] stops there: the error is raised and no file
    is read or written. *)
Theorem main_stops_without_directory (World : Type)
  (os_makedirs : string -> World -> World * option errno)
  (os_write : string -> string -> World -> World * option errno)
  (input_files : list (string * string)) (output : string) (w w' : World)
  (err : errno) :
  os_makedirs output w = (w', Some err) ->
  err <> EEXIST ->
  main os_makedirs os_write input_files output w
  = (w', [], Raise (OSError err)).
Proof.
  intros E Hne. unfold main, make_dir. rewrite E.
  destruct err; simpl; congruence.
Qed.

Lemma main_stops_without_directory_witness :
  main toy_makedirs toy_write
    [("corpus/chemprot_abstracts", Str.unlines [abstract_1])]
    "out" (ToyWorld [] true)
  = (ToyWorld [] true, [], Raise (OSError EROFS)).
Proof.
  apply (main_stops_without_directory toy_world toy_makedirs toy_write
           [("corpus/chemprot_abstracts", Str.unlines [abstract_1])]
           "out" (ToyWorld [] true) (ToyWorld [] true) EROFS).
  - reflexivity.
  - discriminate.
Defined.

(** X11.  [main] never succeeds on a directory without an entity file (a
    file whose name holds "entities" and not "abstracts"): whatever the
    other files are, it ends with an exception. *)
Theorem main_needs_entity_file (World : Type)
  (os_makedirs : string -> World -> World * option errno)
  (os_write : string -> string -> World -> World * option errno)
  (input_files : list (string * string)) (output : string) (w : World) :
  Forall (fun file => is_entity_file (fst file) = false) input_files ->
  exists e, snd (main os_makedirs os_write input_files output w) = Raise e.
Proof.
  intros Hno. unfold main.
  destruct (make_dir os_makedirs output w) as [w1 [u|e]]; [|now exists e].
  destruct (main_files os_write output input_files (Locals None None) w1)
    as [[w2 written] [st|e]] eqn:E; [|now exists e].
  pose proof (MainFacts.main_files_keeps_entities World os_write output
                input_files (Locals None None) w1 w2 written st Hno E)
    as Hst.
  unfold main_annotations. rewrite Hst. now exists NameError.
Qed.

Lemma main_needs_entity_file_witness :
  exists e,
    snd (main toy_makedirs toy_write
           [("corpus/chemprot_abstracts", Str.unlines [abstract_1]);
            ("corpus/chemprot_gold_standard",
             Str.unlines [relation_line "PMID1" "CPR:4" "Arg1:T1" "Arg2:T2"])]
           "out" (ToyWorld [] false))
    = Raise e.
Proof.
  apply (main_needs_entity_file toy_world toy_makedirs toy_write
           [("corpus/chemprot_abstracts", Str.unlines [abstract_1]);
            ("corpus/chemprot_gold_standard",
             Str.unlines [relation_line "PMID1" "CPR:4" "Arg1:T1" "Arg2:T2"])]
           "out" (ToyWorld [] false)).
  repeat constructor.
Defined.

(** X12.  A file whose name holds none of "abstracts", "entities" and
    "gold_standard" is ignored by [main], wherever it stands among the
    files: the result is that of the run without it. *)
Theorem main_ignores_unmatched_file (World : Type)
  (os_makedirs : string -> World -> World * option errno)
  (os_write : string -> string -> World -> World * option errno)
  (pre post : list (string * string)) (name content output : string)
  (w : World) :
  is_unmatched_file name = true ->
  main os_makedirs os_write (pre ++ (name, content) :: post) output w
  = main os_makedirs os_write (pre ++ post) output w.
Proof.
  intros H. unfold main.
  destruct (make_dir os_makedirs output w) as [w1 [u|e]]; [|reflexivity].
  now rewrite (MainFacts.main_files_skip_unmatched World os_write output
                 pre name content post (Locals None None) w1 H).
Qed.

Lemma main_ignores_unmatched_file_witness :
  main toy_makedirs toy_write
    ([("corpus/chemprot_entities", Str.unlines [entity_line aspirin])]
     ++ ("corpus/readme", "not a corpus file")
     :: [("corpus/chemprot_gold_standard", "")])
    "out" (ToyWorld [] false)
  = main toy_makedirs toy_write
      ([("corpus/chemprot_entities", Str.unlines [entity_line aspirin])]
       ++ [("corpus/chemprot_gold_standard", "")])
      "out" (ToyWorld [] false).
Proof.
  apply (main_ignores_unmatched_file toy_world toy_makedirs toy_write
           [("corpus/chemprot_entities", Str.unlines [entity_line aspirin])]
           [("corpus/chemprot_gold_standard", "")]
           "corpus/readme" "not a corpus file" "out" (ToyWorld [] false)).
  reflexivity.
Defined.



(** ** Whitespace around the content *)

Module PaddingFacts.
Import Str StrFacts.

Lemma for_each_Forall2 {S X} (body : S -> X -> result S) (xs ys : list X) :
  Forall2 (fun x y => forall s, body s x = body s y) xs ys ->
  forall s, for_each body xs s = for_each body ys s.
Proof.
  induction 1 as [|x y xs ys Hxy _ IH]; intros s; simpl; [reflexivity|].
  rewrite Hxy. destruct (body s y); simpl; [apply IH | reflexivity].
Qed.

Lemma entities_body_same_line l l' :
  same_line l l' -> forall acc, entities_body acc l = entities_body acc l'.
Proof.
  intros [Ht Hr] acc. unfold entities_body, strip. now rewrite Ht, Hr.
Qed.

Lemma relations_body_same_line l l' :
  same_line l l' -> forall st, relations_body st l = relations_body st l'.
Proof.
  intros [Ht Hr] st. unfold relations_body, strip. now rewrite Ht, Hr.
Qed.

Lemma ends_with_newline_cons a c f :
  ends_with_newline (String a (String c f)) = ends_with_newline (String c f).
Proof. reflexivity. Qed.

(** Appending the missing final newline changes the last line only, and
    only by its terminator. *)
Lemma readlines_final_newline f :
  f <> "" -> ends_with_newline f = false ->
  Forall2 same_line (readlines f) (readlines (f ++ NL)).
Proof.
  induction f as [|a f IH]; intros Hne Hend; [congruence|].
  destruct f as [|c f].
  - simpl in Hend. simpl. rewrite Hend. repeat constructor.
  - rewrite ends_with_newline_cons in Hend.
    specialize (IH ltac:(discriminate) Hend).
    change (String a (String c f) ++ NL) with (String a (String c f ++ NL)).
    remember (String c f) as g eqn:Hg. clear Hg Hne Hend. simpl.
    destruct (Ascii.eqb a nl).
    + constructor; [split; reflexivity | exact IH].
    + destruct IH as [|l l' ls ls' [_ Hr] Hrest].
      * repeat constructor.
      * constructor; [|exact Hrest]. split; [reflexivity|].
        simpl. now rewrite Hr.
Qed.

Lemma rstrip_app_whitespace f r :
  all_whitespace r = true -> rstrip (f ++ r) = rstrip f.
Proof.
  intros Hr. induction f as [|a f IH]; simpl.
  - now apply AbstractFileFacts.rstrip_all_whitespace.
  - now rewrite IH.
Qed.

Lemma lstrip_whitespace_app l f :
  all_whitespace l = true -> lstrip (l ++ f) = lstrip f.
Proof.
  induction l as [|a l IH]; simpl; [reflexivity|].
  intros H. apply andb_prop in H as [Ha Hl]. rewrite Ha. now apply IH.
Qed.

Lemma rstrip_whitespace_app l f :
  all_whitespace l = true ->
  rstrip (l ++ f) = match rstrip f with
                    | "" => ""
                    | String _ _ => l ++ rstrip f
                    end.
Proof.
  induction l as [|a l IH]; simpl.
  - intros _. now destruct (rstrip f).
  - intros H. apply andb_prop in H as [Ha Hl]. rewrite (IH Hl).
    destruct (rstrip f) as [|x y]; [now rewrite Ha|].
    now destruct l.
Qed.

(** [strip] does not see whitespace put around a text. *)
Lemma strip_padding l f r :
  all_whitespace l = true -> all_whitespace r = true ->
  strip (l ++ f ++ r) = strip f.
Proof.
  intros Hl Hr. unfold strip.
  rewrite (rstrip_whitespace_app l (f ++ r) Hl).
  rewrite (rstrip_app_whitespace f r Hr).
  destruct (rstrip f) as [|x y] eqn:E; [reflexivity|].
  now apply lstrip_whitespace_app.
Qed.

End PaddingFacts.

(** X14.  A file whose last line lacks its newline is parsed like the same
    file with the newline added, by the entity parser and by the relation
    parser. *)
Theorem final_newline_is_optional (f : string) :
  f <> "" ->
  ends_with_newline f = false ->
  convert_entities_to_standoff (f ++ Str.NL) = convert_entities_to_standoff f
  /\ convert_relations_to_standoff (f ++ Str.NL)
     = convert_relations_to_standoff f.
Proof.
  intros Hne Hend.
  pose proof (PaddingFacts.readlines_final_newline f Hne Hend) as H.
  unfold convert_entities_to_standoff, convert_relations_to_standoff. split.
  - rewrite (PaddingFacts.for_each_Forall2 entities_body (Str.readlines f)
               (Str.readlines (f ++ Str.NL))); [reflexivity|].
    revert H. apply Forall2_impl.
    exact PaddingFacts.entities_body_same_line.
  - rewrite (PaddingFacts.for_each_Forall2 relations_body (Str.readlines f)
               (Str.readlines (f ++ Str.NL))); [reflexivity|].
    revert H. apply Forall2_impl.
    exact PaddingFacts.relations_body_same_line.
Qed.

Lemma final_newline_is_optional_witness :
  convert_entities_to_standoff (entity_line aspirin ++ Str.NL)
  = convert_entities_to_standoff (entity_line aspirin)
  /\ convert_relations_to_standoff (entity_line aspirin ++ Str.NL)
     = convert_relations_to_standoff (entity_line aspirin).
Proof.
  apply (final_newline_is_optional (entity_line aspirin)).
  - discriminate.
  - reflexivity.
Defined.

(** X15.  Whitespace before the first abstract and after the last one, blank
    lines included, does not change the abstract mapping. *)
Theorem abstract_padding_ignored (l f r : string) :
  all_whitespace l = true ->
  all_whitespace r = true ->
  convert_abstracts_to_standoff (l ++ f ++ r)
  = convert_abstracts_to_standoff f.
Proof.
  intros Hl Hr. unfold convert_abstracts_to_standoff.
  now rewrite (PaddingFacts.strip_padding l f r Hl Hr).
Qed.

Lemma abstract_padding_ignored_witness :
  convert_abstracts_to_standoff
    (Str.NL ++ Str.unlines [abstract_1] ++ Str.unlines [""; " "])
  = convert_abstracts_to_standoff (Str.unlines [abstract_1]).
Proof.
  apply (abstract_padding_ignored Str.NL (Str.unlines [abstract_1])
           (Str.unlines [""; " "])); reflexivity.
Defined.

(** ** Files that do not parse *)

Lemma for_each_only_raises {S X} (body : S -> X -> result S) (e0 : exn)
  (xs : list X) :
  (forall s x e, body s x = Raise e -> e = e0) ->
  forall s e, for_each body xs s = Raise e -> e = e0.
Proof.
  intros Honly. induction xs as [|x xs IH]; intros s e; simpl;
    [discriminate|].
  destruct (body s x) as [s1|e1] eqn:E; simpl.
  - apply IH.
  - intros [= <-]. now apply (Honly s x).
Qed.

Module AbortFacts.

Lemma entities_only_ValueError f e :
  convert_entities_to_standoff f = Raise e -> e = ValueError.
Proof.
  unfold convert_entities_to_standoff.
  destruct (for_each entities_body (Str.readlines f) Dict.empty)
    as [d|e1] eqn:E; simpl; [discriminate|].
  intros [= <-].
  apply (for_each_only_raises entities_body ValueError (Str.readlines f)
           (fun s x e => @ParserFacts.entities_body_only_ValueError s x e)
           Dict.empty e1 E).
Qed.

Lemma relations_only_ValueError f e :
  convert_relations_to_standoff f = Raise e -> e = ValueError.
Proof.
  unfold convert_relations_to_standoff.
  destruct (for_each relations_body (Str.readlines f) (1, Dict.empty))
    as [d|e1] eqn:E; simpl; [discriminate|].
  intros [= <-].
  apply (for_each_only_raises relations_body ValueError (Str.readlines f)
           (fun s x e => @ParserFacts.relations_body_only_ValueError s x e)
           (1, Dict.empty) e1 E).
Qed.

Section Files.

Variable World : Type.
Variable os_write : string -> string -> World -> World * option errno.

(** The loop over the files raises the [ValueError] of a parser or the
    [OSError] of a write, and nothing else. *)
Lemma main_files_raises output files st w w' written e :
  main_files os_write output files st w = (w', written, Raise e) ->
  raised_by_files e.
Proof.
  revert st w w' written. induction files as [|[n c] files IH];
    intros st w w' written; cbn [main_files]; [discriminate|].
  destruct (Str.search "abstracts" n).
  { destruct (write_to_disk os_write output
                (convert_abstracts_to_standoff c) "txt" w)
      as [[w1 wr1] [u|e1]] eqn:Ew.
    - destruct (main_files os_write output files st w1)
        as [[w2 wr2] r] eqn:E.
      intros [= _ _ ->]. now apply (IH _ _ _ _ E).
    - intros [= _ _ <-]. right.
      exact (WriteFacts.write_to_disk_raises World os_write _ _ _ _ _ _ _
               Ew). }
  destruct (Str.search "entities" n).
  { destruct (convert_entities_to_standoff c) as [d|e1] eqn:E;
      [apply IH|]. intros [= _ _ <-]. left.
    now apply entities_only_ValueError with c. }
  destruct (Str.search "gold_standard" n); [|apply IH].
  destruct (convert_relations_to_standoff c) as [d|e1] eqn:E; [apply IH|].
  intros [= _ _ <-]. left. now apply relations_only_ValueError with c.
Qed.

(** Where no write fails, the loop raises [ValueError] only. *)
Lemma main_files_raises_ValueError output files st w w' written e :
  (forall p c w0, snd (os_write p c w0) = None) ->
  main_files os_write output files st w = (w', written, Raise e) ->
  e = ValueError.
Proof.
  intros Hnever.
  assert (Hw : forall d ext w0 w1 wr e1,
             write_to_disk os_write output d ext w0 = (w1, wr, Raise e1) ->
             False).
  { intros d ext. unfold write_to_disk. generalize (Dict.items d) as items.
    induction items as [|[pmid item] items IHi]; intros w0 w1 wr e1;
      cbn [write_items]; [discriminate|].
    pose proof (Hnever (os_path_join output (pmid ++ "." ++ ext)) item w0)
      as Hn.
    destruct (os_write _ item w0) as [w2 [err|]]; cbv beta iota;
      [discriminate|].
    destruct (write_items os_write output ext items w2)
      as [[w3 wr3] r3] eqn:E.
    intros [= _ _ ->]. now apply (IHi _ _ _ _ E). }
  revert st w w' written. induction files as [|[n c] files IH];
    intros st w w' written; cbn [main_files]; [discriminate|].
  destruct (Str.search "abstracts" n).
  { destruct (write_to_disk os_write output
                (convert_abstracts_to_standoff c) "txt" w)
      as [[w1 wr1] [u|e1]] eqn:Ew.
    - destruct (main_files os_write output files st w1)
        as [[w2 wr2] r] eqn:E.
      intros [= _ _ ->]. now apply (IH _ _ _ _ E).
    - destruct (Hw _ _ _ _ _ _ Ew). }
  destruct (Str.search "entities" n).
  { destruct (convert_entities_to_standoff c) as [d|e1] eqn:E;
      [apply IH|]. intros [= _ _ <-].
    now apply entities_only_ValueError with c. }
  destruct (Str.search "gold_standard" n); [|apply IH].
  destruct (convert_relations_to_standoff c) as [d|e1] eqn:E; [apply IH|].
  intros [= _ _ <-]. now apply relations_only_ValueError with c.
Qed.

(** One file that does not parse makes the loop raise. *)
Lemma main_files_malformed output files st w :
  Exists malformed_file files ->
  exists w' written e,
    main_files os_write output files st w = (w', written, Raise e).
Proof.
  intros Hbad. revert st w.
  induction files as [|[n c] files IH]; intros st w; [inversion Hbad|].
  cbn [main_files].
  unfold malformed_file, is_entity_file, is_relation_file in Hbad.
  destruct (Str.search "abstracts" n) eqn:Ha.
  { inversion Hbad as [? ? [[H _] | [H _]] | ? ? H]; subst;
      try (simpl in H; rewrite Ha in H; discriminate).
    destruct (write_to_disk os_write output
                (convert_abstracts_to_standoff c) "txt" w)
      as [[w1 wr1] [u|e1]]; [|now do 3 eexists].
    destruct (IH H st w1) as (w2 & wr2 & e & ->). now do 3 eexists. }
  destruct (Str.search "entities" n) eqn:He.
  { destruct (convert_entities_to_standoff c) as [d|e1] eqn:E;
      [|now do 3 eexists].
    inversion Hbad as [? ? [[_ [e H]] | [H _]] | ? ? H]; subst.
    - simpl in H. congruence.
    - simpl in H. rewrite Ha, He in H. discriminate.
    - now apply IH. }
  destruct (Str.search "gold_standard" n) eqn:Hg.
  { destruct (convert_relations_to_standoff c) as [d|e1] eqn:E;
      [|now do 3 eexists].
    inversion Hbad as [? ? [[H _] | [_ [e H]]] | ? ? H]; subst.
    - simpl in H. rewrite Ha, He in H. discriminate.
    - simpl in H. congruence.
    - now apply IH. }
  inversion Hbad as [? ? [[H _] | [H _]] | ? ? H]; subst.
  - simpl in H. rewrite Ha, He in H. discriminate.
  - simpl in H. rewrite Ha, He, Hg in H. discriminate.
  - now apply IH.
Qed.

End Files.

End AbortFacts.

(** X16.  When an entity file or a relation file of the directory does not
    parse, [main] ends with an exception, the [ValueError] of the parser or
    the [OSError] of a write that failed before the file was reached (so
    [ValueError] where no write fails), and writes no annotation file: all
    it has written by then are [.txt] files of the abstracts files. *)
Theorem main_aborts_on_malformed_file (World : Type)
  (os_makedirs : string -> World -> World * option errno)
  (os_write : string -> string -> World -> World * option errno)
  (input_files : list (string * string)) (output : string) (w : World) :
  snd (make_dir os_makedirs output w) = Ok tt ->
  Exists malformed_file input_files ->
  exists e,
    snd (main os_makedirs os_write input_files output w) = Raise e
    /\ raised_by_files e
    /\ ((forall p c w0, snd (os_write p c w0) = None) -> e = ValueError)
    /\ Forall (abstract_write output input_files)
              (snd (fst (main os_makedirs os_write input_files output w))).
Proof.
  intros Hdir Hbad. unfold main.
  destruct (make_dir os_makedirs output w) as [w1 [[]|e]];
    [|discriminate].
  pose proof (MainFacts.main_files_writes_abstracts World os_write output
                input_files (Locals None None) w1) as Hw.
  destruct (AbortFacts.main_files_malformed World os_write output
              input_files (Locals None None) w1 Hbad)
    as (w2 & written & e & E).
  rewrite E in *. cbn [fst snd] in *. exists e.
  split; [reflexivity|]. split; [|split; [|exact Hw]].
  - exact (AbortFacts.main_files_raises World os_write _ _ _ _ _ _ _ E).
  - intros Hnever.
    exact (AbortFacts.main_files_raises_ValueError World os_write _ _ _ _ _
             _ _ Hnever E).
Qed.

Lemma main_aborts_on_malformed_file_witness :
  let files :=
    [("corpus/chemprot_abstracts", Str.unlines [abstract_1]);
     ("corpus/chemprot_entities",
      Str.unlines [entity_line aspirin; five_fields]);
     ("corpus/chemprot_gold_standard", "")] in
  exists e,
    snd (main toy_makedirs toy_write files "out" (ToyWorld [] false))
    = Raise e
    /\ raised_by_files e
    /\ ((forall p c w0, snd (toy_write p c w0) = None) -> e = ValueError)
    /\ Forall (abstract_write "out" files)
              (snd (fst (main toy_makedirs toy_write files "out"
                           (ToyWorld [] false)))).
Proof.
  intros files.
  apply (main_aborts_on_malformed_file toy_world toy_makedirs toy_write
           files "out" (ToyWorld [] false)).
  - reflexivity.
  - right. left. left. split; [reflexivity|]. exists ValueError.
    vm_compute. reflexivity.
Defined.

(** ** The relation parser on rows in any order *)

Module InterleavedFacts.
Import Str StrFacts Dict DictFacts AppendFacts.

Lemma for_each_relation_rows rows st :
  Forall (fun row => relation_row_ok (fst row) (snd row)) rows ->
  for_each relations_body
    (map (fun row => relation_row_line (fst row) (snd row) ++ NL) rows) st
  = Ok (fold_left relation_step rows st).
Proof.
  intros H. revert st.
  induction H as [|[pmid r] rows Hr _ IH]; intros [R d];
    cbn [map for_each fold_left]; [reflexivity|].
  cbn [fst snd] in *.
  rewrite (RelationFacts.relations_body_row R d pmid r Hr). cbn [bind].
  apply IH.
Qed.

(** Under every key the loop appends one line per row of that document, in
    the order of the rows, whatever the counter is worth. *)
Lemma get_fold_relation_step rows st pmid :
  exists new,
    Forall2 standoff_of new (relations_of pmid rows)
    /\ get pmid (snd (fold_left relation_step rows st))
       = match new with
         | [] => get pmid (snd st)
         | _ :: _ => Some (or_nil (get pmid (snd st)) ++ new)%list
         end.
Proof.
  revert st. induction rows as [|[p r] rows IH]; intros st.
  - exists []. split; [constructor | reflexivity].
  - cbn [fold_left]. destruct (IH (relation_step st (p, r))) as (new & HF & Hg).
    unfold relations_of in *. cbn [filter fst].
    destruct (String.eqb_spec p pmid) as [-> | Hne].
    + eexists (_ :: new). split.
      * constructor; [eexists; reflexivity | exact HF].
      * rewrite Hg. unfold relation_step. cbn [fst snd].
        rewrite get_append_eq.
        destruct new; cbn [or_nil]; [reflexivity|].
        now rewrite <- app_assoc.
    + exists new. split; [exact HF|]. rewrite Hg.
      unfold relation_step. cbn [fst snd].
      now rewrite get_append_ne by congruence.
Qed.

Lemma wf_fold_relation_step rows st :
  wf (snd st) -> wf (snd (fold_left relation_step rows st)).
Proof.
  revert st. induction rows as [|row rows IH]; intros st Hwf;
    cbn [fold_left]; [exact Hwf|].
  apply IH. unfold relation_step. cbn [snd]. now apply wf_append.
Qed.

End InterleavedFacts.

(** X17.  On well-formed relation rows in any order, interleaved documents
    included, the relation parser succeeds and loses or reorders nothing:
    the block of a document holds one line per row of that document, in
    input order, each with the label and the arguments of its row; only the
    numbers depend on the order.  A document without rows has no entry. *)
Theorem relation_rows_kept_in_order (rows : list (string * relation_row)) :
  Forall (fun row => relation_row_ok (fst row) (snd row)) rows ->
  exists out,
    convert_relations_to_standoff
      (Str.unlines
         (map (fun row => relation_row_line (fst row) (snd row)) rows))
    = Ok out
    /\ forall pmid,
         match relations_of pmid rows with
         | [] => Dict.get pmid out = None
         | rs =>
             exists anns,
               Forall2 standoff_of anns rs
               /\ Dict.get pmid out = Some (Str.join Str.NL anns)
         end.
Proof.
  intros Hok. eexists. split.
  - unfold convert_relations_to_standoff.
    rewrite StrFacts.readlines_unlines.
    + rewrite map_map.
      rewrite (InterleavedFacts.for_each_relation_rows rows
                 (1, Dict.empty) Hok).
      reflexivity.
    + rewrite Forall_map. revert Hok. apply Forall_impl.
      intros [pmid r]. apply RelationFacts.relation_line_free_of_nl.
  - intros pmid. cbn [bind].
    rewrite AppendFacts.get_join_annotations
      by (apply InterleavedFacts.wf_fold_relation_step; constructor).
    destruct (InterleavedFacts.get_fold_relation_step rows
                (1, Dict.empty) pmid) as (new & HF & ->).
    destruct HF as [|ann row anns rs Hann HF'].
    + reflexivity.
    + exists (ann :: anns). split; [now constructor | reflexivity].
Qed.

Lemma relation_rows_kept_in_order_witness :
  exists out,
    convert_relations_to_standoff
      (Str.unlines
         (map (fun row => relation_row_line (fst row) (snd row))
              interleaved_rows))
    = Ok out
    /\ forall pmid,
         match relations_of pmid interleaved_rows with
         | [] => Dict.get pmid out = None
         | rs =>
             exists anns,
               Forall2 standoff_of anns rs
               /\ Dict.get pmid out = Some (Str.join Str.NL anns)
         end.
Proof.
  apply (relation_rows_kept_in_order interleaved_rows).
  repeat constructor; vm_compute; reflexivity.
Defined.
